(** * CardDProject: cards, a deck with a draw cursor, and the fair-deck guard

    A shallow embedding of [CardDProject/main.py].  Python values that the
    code inspects with [isinstance] are a small sum type, exceptions are a
    result type, the deck is a record threaded through its methods, and the
    list object handed out by the [cards] property lives in a store of list
    objects so that aliasing can be stated. *)

From stdpp Require Import gmap strings list fin_maps sorting.
From Stdlib Require Import ZArith Lia Ascii.

Local Open Scope Z_scope.

(** ** Enumerations *)

Inductive CardSuit := CLUBS | DIAMONDS | HEARTS | SPADES.

Inductive CardRank :=
  TWO | THREE | FOUR | FIVE | SIX | SEVEN | EIGHT | NINE | TEN
| JACK | QUEEN | KING | ACE.

(** [member.value] *)
Definition CardSuit_value (s : CardSuit) : Z :=
  match s with CLUBS => 1 | DIAMONDS => 2 | HEARTS => 3 | SPADES => 4 end.

Definition CardRank_value (r : CardRank) : Z :=
  match r with
  | TWO => 2 | THREE => 3 | FOUR => 4 | FIVE => 5 | SIX => 6 | SEVEN => 7
  | EIGHT => 8 | NINE => 9 | TEN => 10 | JACK => 11 | QUEEN => 12
  | KING => 13 | ACE => 14
  end.

(** Iterating an [Enum] class yields its members in definition order. *)
Definition CardSuit_members : list CardSuit := [CLUBS; DIAMONDS; HEARTS; SPADES].

Definition CardRank_members : list CardRank :=
  [TWO; THREE; FOUR; FIVE; SIX; SEVEN; EIGHT; NINE; TEN; JACK; QUEEN; KING; ACE].

#[global] Instance CardSuit_eq_dec : EqDecision CardSuit.
Proof. solve_decision. Defined.

#[global] Instance CardRank_eq_dec : EqDecision CardRank.
Proof. solve_decision. Defined.

(** ** Exceptions and results *)

Inductive Exc := ValueError | TypeError | IndexError | DeckCheatingError.

#[global] Instance Exc_eq_dec : EqDecision Exc.
Proof. solve_decision. Defined.

Inductive Result (A : Type) :=
| Return (a : A)
| Raise (e : Exc).

Arguments Return {A} a.
Arguments Raise {A} e.

(** ** Cards *)

Record Card := mkCard { rank : CardRank; suit : CardSuit }.

#[global] Instance Card_eq_dec : EqDecision Card.
Proof. solve_decision. Defined.

(** The run-time values the code tells apart with [isinstance]. *)
Inductive PyVal :=
| PyNone
| PyBool (b : bool)
| PyInt (z : Z)
| PyStr (s : string)
| PyRank (r : CardRank)
| PySuit (s : CardSuit)
| PyCard (c : Card).

(** [isinstance(v, int)]: [bool] is a subclass of [int]. *)
Definition as_int (v : PyVal) : option Z :=
  match v with
  | PyInt z => Some z
  | PyBool b => Some (if b then 1 else 0)
  | _ => None
  end.

(** [Card.__init__] *)
Definition Card___init__ (rank suit : PyVal) : Result Card :=
  match rank, suit with
  | PyRank r, PySuit s => Return (mkCard r s)
  | _, _ => Raise ValueError
  end.

(** The three rich comparisons once [other] is known to be a [Card]. *)
Definition Card_eqb (self other : Card) : bool :=
  bool_decide (rank self = rank other) && bool_decide (suit self = suit other).

Definition Card_ltb (self other : Card) : bool :=
  if CardRank_value (rank self) <? CardRank_value (rank other) then true
  else if CardRank_value (rank self) >? CardRank_value (rank other) then false
  else CardSuit_value (suit self) <? CardSuit_value (suit other).

Definition Card_gtb (self other : Card) : bool :=
  if CardRank_value (rank self) >? CardRank_value (rank other) then true
  else if CardRank_value (rank self) <? CardRank_value (rank other) then false
  else CardSuit_value (suit self) >? CardSuit_value (suit other).

(** [Card.__eq__], [Card.__lt__], [Card.__gt__] *)
Definition Card___eq__ (self : Card) (other : PyVal) : Result bool :=
  match other with
  | PyCard o => Return (Card_eqb self o)
  | _ => Raise TypeError
  end.

Definition Card___lt__ (self : Card) (other : PyVal) : Result bool :=
  match other with
  | PyCard o => Return (Card_ltb self o)
  | _ => Raise TypeError
  end.

Definition Card___gt__ (self : Card) (other : PyVal) : Result bool :=
  match other with
  | PyCard o => Return (Card_gtb self o)
  | _ => Raise TypeError
  end.

(** [Card.__hash__] hashes the pair (rank, suit); sets of cards are keyed by
    the card itself. *)
Definition Card_encode (c : Card) : Z :=
  13 * (CardSuit_value (suit c) - 1) + (CardRank_value (rank c) - 2).

Definition Card_decode (n : Z) : Card :=
  mkCard (nth (Z.to_nat (n mod 13)) CardRank_members TWO)
         (nth (Z.to_nat (n / 13)) CardSuit_members CLUBS).

#[global] Instance Card_countable : Countable Card.
Proof.
  refine (inj_countable' Card_encode Card_decode _). by intros [[] []].
Defined.

(** ** Python list primitives used by the code *)

(** Normalisation of a slice bound against the length of the list. *)
Definition slice_bound (len i : Z) : nat :=
  Z.to_nat (if i <? 0 then Z.max (i + len) 0 else Z.min i len).

(** [l[start:]] and [l[:stop]] *)
Definition slice_from {A} (l : list A) (start : Z) : list A :=
  drop (slice_bound (Z.of_nat (length l)) start) l.

Definition slice_to {A} (l : list A) (stop : Z) : list A :=
  take (slice_bound (Z.of_nat (length l)) stop) l.

(** [l[i]] for an integer [i]: negative indices count from the end. *)
Definition list_getitem {A} (l : list A) (i : Z) : Result A :=
  let j := if i <? 0 then i + Z.of_nat (length l) else i in
  if j <? 0 then Raise IndexError
  else match l !! Z.to_nat j with
       | Some x => Return x
       | None => Raise IndexError
       end.

(** [card in l] on a list of cards: some element compares equal. *)
Definition list_contains (card : Card) (l : list Card) : bool :=
  existsb (fun e => Card_eqb e card) l.

(** [sorted(cards)]: a stable sort that only asks [__lt__]; an element is
    placed after every earlier element it is not smaller than. *)
Fixpoint sorted_insert (x : Card) (l : list Card) : list Card :=
  match l with
  | [] => [x]
  | y :: l' => if Card_ltb x y then x :: y :: l' else y :: sorted_insert x l'
  end.

Definition sorted (cards : list Card) : list Card :=
  foldl (fun acc x => sorted_insert x acc) [] cards.

(** [random.shuffle(x)]: for [i] from [len(x) - 1] down to [1], pick
    [j = randbelow(i + 1)] and exchange [x[i]] and [x[j]].  The random source
    is external: [tape] lists the numbers it hands out, reduced into range. *)
Definition exchange (i j : nat) (x : list Card) : list Card :=
  match x !! i, x !! j with
  | Some xi, Some xj => <[j := xi]> (<[i := xj]> x)
  | _, _ => x
  end.

Fixpoint shuffle_from (i : nat) (tape : list nat) (x : list Card) : list Card :=
  match i with
  | O => x
  | S i' =>
      let j := (hd 0%nat tape `mod` S i)%nat in
      shuffle_from i' (tl tape) (exchange i j x)
  end.

Definition random_shuffle (tape : list nat) (x : list Card) : list Card :=
  shuffle_from (length x - 1) tape x.

(** ** The fair-deck guard *)

Record Deck := mkDeck { _cards : list Card; _draw_index : nat }.

#[global] Instance Deck_eq_dec : EqDecision Deck.
Proof. solve_decision. Defined.

(** The scan of [fair_deck]: walk the cards with the set of cards seen so
    far and stop at the first one already in it. *)
Fixpoint first_duplicate (seen_cards : gset Card) (cards_to_check : list Card)
  : option Card :=
  match cards_to_check with
  | [] => None
  | card :: rest =>
      if decide (card ∈ seen_cards) then Some card
      else first_duplicate ({[card]} ∪ seen_cards) rest
  end.

(** [fair_deck(func)]: run [func]; an exception of [func] passes through
    unchecked.  The wrapper is only ever attached to methods of [Deck], so
    [isinstance(self, Deck) and hasattr(self, '_cards')] holds and the cards
    checked are the deck's whole [_cards] list as [func] left it; the [elif]
    that would look at a returned list is never reached. *)
Definition fair_deck {A} (func : Deck → Result A * Deck) (self : Deck)
  : Result A * Deck :=
  match func self with
  | (Raise e, self') => (Raise e, self')
  | (Return result, self') =>
      let cards_to_check := _cards self' in
      match cards_to_check with
      | [] => (Return result, self')
      | _ =>
          match first_duplicate ∅ cards_to_check with
          | Some _ => (Raise DeckCheatingError, self')
          | None => (Return result, self')
          end
      end
  end.

(** ** The deck *)

(** The remaining cards, [self._cards[self._draw_index:]]. *)
Definition remaining (self : Deck) : list Card :=
  slice_from (_cards self) (Z.of_nat (_draw_index self)).

(** [Deck.shuffle] *)
Definition Deck_shuffle (tape : list nat) (self : Deck) : Deck :=
  {| _cards := random_shuffle tape (_cards self); _draw_index := 0 |}.

(** [Deck.__init__]: the nested loops append one card per suit and rank. *)
Definition Deck___init__ (shuffle : bool) (tape : list nat) : Deck :=
  let cards :=
    foldl (fun acc suit =>
             foldl (fun acc rank => acc ++ [mkCard rank suit]) acc CardRank_members)
          [] CardSuit_members in
  let self := {| _cards := cards; _draw_index := 0 |} in
  let self := if shuffle then Deck_shuffle tape self else self in
  {| _cards := _cards self; _draw_index := 0 |}.

(** The [cards] property: its body, and the body under the guard. *)
Definition Deck_cards_func (self : Deck) : Result (list Card) * Deck :=
  (Return (remaining self), self).

Definition Deck_cards : Deck → Result (list Card) * Deck :=
  fair_deck Deck_cards_func.

(** [Deck.draw]: [None] is the empty signal. *)
Definition Deck_draw (self : Deck) : option Card * Deck :=
  if decide (length (_cards self) ≤ _draw_index self)%nat then (None, self)
  else
    match _cards self !! _draw_index self with
    | Some card =>
        (Some card, {| _cards := _cards self; _draw_index := _draw_index self + 1 |})
    | None => (None, self)
    end.

(** [Deck.add_card]: its body, and the body under the guard. *)
Definition Deck_add_card_func (card : PyVal) (self : Deck) : Result unit * Deck :=
  match card with
  | PyCard c =>
      if list_contains c (remaining self) then (Raise DeckCheatingError, self)
      else (Return (), {| _cards := _cards self ++ [c];
                          _draw_index := _draw_index self |})
  | _ => (Raise TypeError, self)
  end.

Definition Deck_add_card (card : PyVal) : Deck → Result unit * Deck :=
  fair_deck (Deck_add_card_func card).

(** [Deck.__len__] *)
Definition Deck___len__ (self : Deck) : Z :=
  Z.of_nat (length (_cards self)) - Z.of_nat (_draw_index self).

(** [Deck.__getitem__] *)
Definition Deck___getitem__ (self : Deck) (index : PyVal) : Result Card :=
  match as_int index with
  | None => Raise TypeError
  | Some i =>
      let actual_index := Z.of_nat (_draw_index self) + i in
      if (0 <=? i) && (i <? Deck___len__ self)
      then list_getitem (_cards self) actual_index
      else Raise IndexError
  end.

(** ** Statistics *)

Inductive StatValue :=
| StatCards (l : list Card)
| StatLen (n : Z).

(** The loop of [cards_stats] over the keyword arguments, in call order.
    [out] collects the keys the function prints a warning for. *)
Fixpoint cards_stats_loop (cards sorted_cards : list Card)
    (kwargs : list (string * PyVal)) (results : gmap string StatValue)
    (out : list string) : Result (gmap string StatValue) * list string :=
  match kwargs with
  | [] => (Return results, out)
  | (key, value) :: kwargs' =>
      match as_int value with
      | None => (Raise ValueError, out)
      | Some value =>
          if value <=? 0 then (Raise ValueError, out)
          else if String.eqb key "max" then
            let value := if value >? Z.of_nat (length sorted_cards)
                         then Z.of_nat (length sorted_cards) else value in
            cards_stats_loop cards sorted_cards kwargs'
              (<["max" := StatCards (slice_from sorted_cards (- value))]> results) out
          else if String.eqb key "min" then
            let value := if value >? Z.of_nat (length sorted_cards)
                         then Z.of_nat (length sorted_cards) else value in
            cards_stats_loop cards sorted_cards kwargs'
              (<["min" := StatCards (slice_to sorted_cards value)]> results) out
          else if String.eqb key "len" then
            cards_stats_loop cards sorted_cards kwargs'
              (<["len" := StatLen (Z.of_nat (length cards))]> results) out
          else
            cards_stats_loop cards sorted_cards kwargs' results (out ++ [key])
      end
  end.

(** [cards_stats]: the positional cards and the keyword arguments. *)
Definition cards_stats (cards : list Card) (kwargs : list (string * PyVal))
  : Result (gmap string StatValue) * list string :=
  match cards with
  | [] => (Raise ValueError, [])
  | _ => cards_stats_loop cards (sorted cards) kwargs ∅ []
  end.

(** ** Call sequences on one deck *)

(** The public calls that the deck's state depends on.  [CallShuffle] carries
    the numbers the random source hands out during that shuffle. *)
Inductive Call :=
| CallShuffle (tape : list nat)
| CallDraw
| CallAddCard (card : PyVal)
| CallCards.

(** The deck after one call, whether the call returned or raised. *)
Definition call (c : Call) (self : Deck) : Deck :=
  match c with
  | CallShuffle tape => Deck_shuffle tape self
  | CallDraw => snd (Deck_draw self)
  | CallAddCard card => snd (Deck_add_card card self)
  | CallCards => snd (Deck_cards self)
  end.

Definition calls (cs : list Call) (self : Deck) : Deck :=
  foldl (fun d c => call c d) self cs.

(** Every shuffle of the sequence starts from a [_cards] list without
    duplicates. *)
Fixpoint shuffles_clean (cs : list Call) (self : Deck) : bool :=
  match cs with
  | [] => true
  | c :: cs' =>
      match c with
      | CallShuffle _ => bool_decide (NoDup (_cards self))
      | _ => true
      end && shuffles_clean cs' (call c self)
  end.

(** [n] draws in a row, with what each returned. *)
Fixpoint draw_many (n : nat) (self : Deck) : list (option Card) * Deck :=
  match n with
  | O => ([], self)
  | S n' =>
      let (r, self') := Deck_draw self in
      let (rs, self'') := draw_many n' self' in
      (r :: rs, self'')
  end.

(** The deck with one more card at the end of [_cards]. *)
Definition appended (c : Card) (self : Deck) : Deck :=
  {| _cards := _cards self ++ [c]; _draw_index := _draw_index self |}.

(** Sample cards and decks: an unshuffled deck, the deck after its first
    draw, and the deck after the drawn card was then passed to [add_card]. *)
Definition two_of_clubs : Card := mkCard TWO CLUBS.
Definition unshuffled : Deck := Deck___init__ false [].
Definition after_one_draw : Deck := snd (Deck_draw unshuffled).
Definition after_readd : Deck :=
  snd (Deck_add_card (PyCard two_of_clubs) after_one_draw).

(** The six cards of the statistics demonstration in [main], and the
    options [max=2, min=1, len=1]. *)
Definition six_cards : list Card :=
  [mkCard ACE SPADES; mkCard TWO HEARTS; mkCard ACE DIAMONDS;
   mkCard KING CLUBS; mkCard THREE SPADES; mkCard NINE HEARTS].

Definition six_options : list (string * PyVal) :=
  [("max", PyInt 2); ("min", PyInt 1); ("len", PyInt 1)].

(** ** Error kinds

    The exception classes behind the error kinds the deck's contract names:
    [Card.__init__] rejects a mistyped rank or suit with [ValueError], the
    comparisons and [add_card] reject a non-card with [TypeError], the index
    accessor rejects an index past the bounds with [IndexError], and the
    duplicate checks raise [DeckCheatingError]. *)
Definition InvalidArgument : Exc := ValueError.
Definition TypeMismatch : Exc := TypeError.
Definition IndexOutOfRange : Exc := IndexError.
Definition CheatingDetected : Exc := DeckCheatingError.

(** ** The store of list objects

    A list is a mutable object with an identity.  The store maps the
    identities of the live list objects to their contents; the deck holds
    the identity of its [_cards] list and its cursor. *)
Record World := mkWorld {
  heap : gmap positive (list Card);
  self_cards : positive;
  self_draw_index : nat
}.

(** The deck's list object is live. *)
Definition World_wf (w : World) : Prop := self_cards w ∈ dom (heap w).

(** The deck as its methods see it. *)
Definition deck_of (w : World) : Deck :=
  {| _cards := default [] (heap w !! self_cards w);
     _draw_index := self_draw_index w |}.

(** Writing the deck's fields back: [_cards] is updated in place. *)
Definition store_deck (d : Deck) (w : World) : World :=
  {| heap := <[self_cards w := _cards d]> (heap w);
     self_cards := self_cards w;
     self_draw_index := _draw_index d |}.

(** A method that works on the deck's own fields only. *)
Definition World_method {A} (method : Deck → A * Deck) (w : World) : A * World :=
  let (a, d) := method (deck_of w) in (a, store_deck d w).

(** Building a new list object, as [list(...)] does: its identity is not
    that of any live object. *)
Definition new_list (l : list Card) (w : World) : positive * World :=
  let r := fresh (dom (heap w)) in
  (r, {| heap := <[r := l]> (heap w);
         self_cards := self_cards w;
         self_draw_index := self_draw_index w |}).

(** The [cards] property in the store: the guarded body computes the
    remaining cards, and the caller receives a new list object holding
    them. *)
Definition World_cards (w : World) : Result positive * World :=
  match Deck_cards (deck_of w) with
  | (Return l, _) => let (r, w') := new_list l w in (Return r, w')
  | (Raise e, _) => (Raise e, w)
  end.

(** What a caller can do to a list object it holds. *)
Inductive ListOp :=
| ListAppend (c : Card)
| ListPop
| ListRemove (c : Card)
| ListSetItem (i : Z) (c : Card)
| ListClear.

(** [l.remove(c)]: drop the first element equal to [c]. *)
Fixpoint list_remove (c : Card) (l : list Card) : option (list Card) :=
  match l with
  | [] => None
  | e :: l' =>
      if Card_eqb e c then Some l'
      else match list_remove c l' with
           | Some l'' => Some (e :: l'')
           | None => None
           end
  end.

(** The contents after the operation; an operation that raises
    ([pop] on an empty list, [remove] of an absent card, an index out of
    range) leaves them as they were. *)
Definition list_op (o : ListOp) (l : list Card) : list Card :=
  match o with
  | ListAppend c => l ++ [c]
  | ListPop => take (length l - 1) l
  | ListRemove c => default l (list_remove c l)
  | ListSetItem i c =>
      let j := if i <? 0 then i + Z.of_nat (length l) else i in
      if j <? 0 then l else <[Z.to_nat j := c]> l
  | ListClear => []
  end.

Definition World_list_op (r : positive) (o : ListOp) (w : World) : World :=
  {| heap := alter (list_op o) r (heap w);
     self_cards := self_cards w;
     self_draw_index := self_draw_index w |}.

Definition World_list_ops (r : positive) (os : list ListOp) (w : World) : World :=
  foldl (fun w o => World_list_op r o w) w os.

(** A store holding just the list of an unshuffled deck. *)
Definition unshuffled_world : World :=
  {| heap := {[1%positive := _cards unshuffled]};
     self_cards := 1%positive;
     self_draw_index := 0 |}.

(** ** Names and display strings *)

(** [member.name] *)
Definition CardSuit_name (s : CardSuit) : string :=
  match s with
  | CLUBS => "CLUBS" | DIAMONDS => "DIAMONDS" | HEARTS => "HEARTS"
  | SPADES => "SPADES"
  end.

Definition CardRank_name (r : CardRank) : string :=
  match r with
  | TWO => "TWO" | THREE => "THREE" | FOUR => "FOUR" | FIVE => "FIVE"
  | SIX => "SIX" | SEVEN => "SEVEN" | EIGHT => "EIGHT" | NINE => "NINE"
  | TEN => "TEN" | JACK => "JACK" | QUEEN => "QUEEN" | KING => "KING"
  | ACE => "ACE"
  end.

(** Letters of the ASCII range, which is all the names contain. *)
Definition is_upper (a : Ascii.ascii) : bool :=
  (65 <=? Ascii.nat_of_ascii a)%nat && (Ascii.nat_of_ascii a <=? 90)%nat.

Definition is_lower (a : Ascii.ascii) : bool :=
  (97 <=? Ascii.nat_of_ascii a)%nat && (Ascii.nat_of_ascii a <=? 122)%nat.

Definition to_upper (a : Ascii.ascii) : Ascii.ascii :=
  if is_lower a then Ascii.ascii_of_nat (Ascii.nat_of_ascii a - 32) else a.

Definition to_lower (a : Ascii.ascii) : Ascii.ascii :=
  if is_upper a then Ascii.ascii_of_nat (Ascii.nat_of_ascii a + 32) else a.

(** [s.replace(old, new)] for single characters. *)
Fixpoint str_replace (old new : Ascii.ascii) (s : string) : string :=
  match s with
  | EmptyString => EmptyString
  | String a s' =>
      String (if Ascii.eqb a old then new else a) (str_replace old new s')
  end.

(** [s.title()]: a letter that follows a letter is lowered, any other
    letter is raised, and the remaining characters are kept. *)
Fixpoint title_from (previous_is_cased : bool) (s : string) : string :=
  match s with
  | EmptyString => EmptyString
  | String a s' =>
      let cased := is_upper a || is_lower a in
      String (if cased then if previous_is_cased then to_lower a else to_upper a
              else a)
             (title_from cased s')
  end.

Definition str_title (s : string) : string := title_from false s.

(** [Card.get_display_name], [Card.__str__], [Card.__repr__] *)
Definition Card_get_display_name (self : Card) : string :=
  let rank_name := str_title (str_replace "_"%char " "%char (CardRank_name (rank self))) in
  let suit_name := str_title (str_replace "_"%char " "%char (CardSuit_name (suit self))) in
  (rank_name ++ " of " ++ suit_name)%string.

Definition Card___str__ (self : Card) : string := Card_get_display_name self.

Definition Card___repr__ (self : Card) : string :=
  ("Card(rank=CardRank." ++ CardRank_name (rank self)
   ++ ", suit=CardSuit." ++ CardSuit_name (suit self) ++ ")")%string.

(** ** Greatest and least card *)

(** The built-in [max] and [min] over cards: the candidate is replaced by
    a later item only when [item > candidate], respectively
    [item < candidate]. *)
Definition builtin_max (first : Card) (rest : list Card) : Card :=
  foldl (fun maxitem item => if Card_gtb item maxitem then item else maxitem)
        first rest.

Definition builtin_min (first : Card) (rest : list Card) : Card :=
  foldl (fun minitem item => if Card_ltb item minitem then item else minitem)
        first rest.

(** [Deck.max], [Deck.min] *)
Definition Deck_max (self : Deck) : Result Card :=
  match remaining self with
  | [] => Raise ValueError
  | first :: rest => Return (builtin_max first rest)
  end.

Definition Deck_min (self : Deck) : Result Card :=
  match remaining self with
  | [] => Raise ValueError
  | first :: rest => Return (builtin_min first rest)
  end.

(** [Deck.__iter__]: the items an iteration yields; the iterator runs over a
    copy of the remaining cards taken when it is created. *)
Definition Deck___iter__ (self : Deck) : list Card := remaining self.

(** The type check loop of [max_card]: the arguments as cards, unless one of
    them is not a card. *)
Fixpoint as_cards (args : list PyVal) : option (list Card) :=
  match args with
  | [] => Some []
  | PyCard c :: args' =>
      match as_cards args' with
      | Some cs => Some (c :: cs)
      | None => None
      end
  | _ :: _ => None
  end.

(** [max_card] on its positional arguments. *)
Definition max_card (cards : list PyVal) : Result Card :=
  match cards with
  | [] => Raise ValueError
  | _ =>
      match as_cards cards with
      | None => Raise TypeError
      | Some [] => Raise ValueError
      | Some (first :: rest) => Return (builtin_max first rest)
      end
  end.

(** The entries [cards_stats] computes for the recognised keys, given the
    count passed with the key. *)
Definition clamp_count (value : Z) (sorted_cards : list Card) : Z :=
  if value >? Z.of_nat (length sorted_cards)
  then Z.of_nat (length sorted_cards) else value.

(** [not (b < a)]: the order in which [sorted] leaves two neighbours. *)
Definition Card_le (a b : Card) : Prop := Card_ltb b a = false.

(** The keyword arguments [cards_stats] accepts: every count is an integer
    above zero. *)
Definition valid_count (value : PyVal) : bool :=
  match as_int value with
  | Some v => negb (v <=? 0)
  | None => false
  end.

Definition known_key (key : string) : bool :=
  String.eqb key "max" || String.eqb key "min" || String.eqb key "len".

(** What one pass of the loop stores under a recognised key. *)
Definition stat_entry (key : string) (value : Z) (cards sorted_cards : list Card)
  : option StatValue :=
  if String.eqb key "max" then
    Some (StatCards (slice_from sorted_cards (- clamp_count value sorted_cards)))
  else if String.eqb key "min" then
    Some (StatCards (slice_to sorted_cards (clamp_count value sorted_cards)))
  else if String.eqb key "len" then Some (StatLen (Z.of_nat (length cards)))
  else None.

(** The two facts every call keeps: the cursor is within the list, and
    every card of the pack is somewhere in [_cards]. *)
Definition cursor_ok (self : Deck) : Prop :=
  (_draw_index self ≤ length (_cards self))%nat.

Definition full_pack (self : Deck) : Prop := ∀ c : Card, c ∈ _cards self.

(** ** Basic facts *)

Lemma Card_eqb_eq (c1 c2 : Card) : Card_eqb c1 c2 = true ↔ c1 = c2.
Proof.
  unfold Card_eqb. rewrite andb_true_iff, !bool_decide_eq_true.
  destruct c1, c2; simpl; split; [intros [-> ->] | intros [= -> ->]]; done.
Qed.

Lemma list_contains_elem_of (c : Card) (l : list Card) :
  list_contains c l = true ↔ c ∈ l.
Proof.
  unfold list_contains. rewrite existsb_exists. split.
  - intros (e & Hin & Heq). apply Card_eqb_eq in Heq as ->.
    by apply list_elem_of_In.
  - intros Hin. exists c. split; [by apply list_elem_of_In | by apply Card_eqb_eq].
Qed.

Lemma slice_from_drop {A} (l : list A) (n : nat) :
  slice_from l (Z.of_nat n) = drop n l.
Proof.
  unfold slice_from, slice_bound.
  destruct (Z.ltb_spec (Z.of_nat n) 0) as [|_]; [lia|].
  destruct (decide (n ≤ length l)%nat).
  - f_equal. lia.
  - rewrite !drop_ge by lia. done.
Qed.

Lemma remaining_drop (self : Deck) :
  remaining self = drop (_draw_index self) (_cards self).
Proof. apply slice_from_drop. Qed.

Lemma first_duplicate_None (seen : gset Card) (l : list Card) :
  first_duplicate seen l = None ↔ NoDup l ∧ ∀ c, c ∈ l → c ∉ seen.
Proof.
  revert seen. induction l as [| c l IH]; intros seen; simpl.
  - split; [| done]. intros _. split; [constructor |].
    intros c Hc. by apply not_elem_of_nil in Hc.
  - destruct (decide (c ∈ seen)) as [Hin | Hout].
    + split; [done | intros [_ Hall]]. exfalso.
      apply (Hall c); [apply list_elem_of_here | done].
    + rewrite IH, NoDup_cons. split.
      * intros [Hnd Hall]. split; [split; [| done] |].
        -- intros Hc. apply (Hall c Hc), elem_of_union. left.
           by apply elem_of_singleton.
        -- intros x [-> | Hx]%elem_of_cons; [done |].
           intros Hseen. apply (Hall x Hx), elem_of_union. by right.
      * intros [[Hc Hnd] Hall]. split; [done |].
        intros x Hx [Hxc | Hseen]%elem_of_union.
        -- apply elem_of_singleton in Hxc as ->. done.
        -- apply (Hall x); [by apply list_elem_of_further | done].
Qed.

Lemma first_duplicate_NoDup (l : list Card) :
  first_duplicate ∅ l = None ↔ NoDup l.
Proof.
  rewrite first_duplicate_None. split; [by intros [Hnd _] | intros Hnd].
  split; [done |]. intros c _. apply not_elem_of_empty.
Qed.

(** What the guard does, in terms of the deck the wrapped function left. *)
Lemma fair_deck_unfold {A} (func : Deck → Result A * Deck) (self : Deck) :
  fair_deck func self =
    match func self with
    | (Raise e, self') => (Raise e, self')
    | (Return result, self') =>
        if decide (NoDup (_cards self')) then (Return result, self')
        else (Raise DeckCheatingError, self')
    end.
Proof.
  unfold fair_deck. destruct (func self) as [[result | e] self']; [| done].
  destruct (_cards self') as [| c0 cards] eqn:Hcards.
  { rewrite decide_True; [done | constructor]. }
  rewrite <- Hcards. clear Hcards.
  destruct (first_duplicate ∅ (_cards self')) as [c |] eqn:Hscan.
  - rewrite decide_False; [done |].
    rewrite <- first_duplicate_NoDup. congruence.
  - rewrite decide_True; [done |]. by apply first_duplicate_NoDup.
Qed.

Lemma Deck_cards_unfold (self : Deck) :
  Deck_cards self =
    if decide (NoDup (_cards self)) then (Return (remaining self), self)
    else (Raise DeckCheatingError, self).
Proof. unfold Deck_cards. by rewrite fair_deck_unfold. Qed.

Lemma exchange_Permutation (i j : nat) (x : list Card) : exchange i j x ≡ₚ x.
Proof.
  unfold exchange.
  destruct (x !! i) as [xi |] eqn:Hi; [| done].
  destruct (x !! j) as [xj |] eqn:Hj; [| done].
  by apply Permutation_insert_swap.
Qed.

Lemma shuffle_from_Permutation (i : nat) (tape : list nat) (x : list Card) :
  shuffle_from i tape x ≡ₚ x.
Proof.
  revert tape x. induction i as [| i IH]; intros tape x; simpl; [done |].
  by rewrite IH, exchange_Permutation.
Qed.

Lemma random_shuffle_Permutation (tape : list nat) (x : list Card) :
  random_shuffle tape x ≡ₚ x.
Proof. apply shuffle_from_Permutation. Qed.

Lemma Deck___init___Permutation (shuffle : bool) (tape : list nat) :
  _cards (Deck___init__ shuffle tape) ≡ₚ _cards unshuffled.
Proof.
  destruct shuffle; [| done]. apply random_shuffle_Permutation.
Qed.

Lemma unshuffled_NoDup : NoDup (_cards unshuffled).
Proof. apply (bool_decide_unpack _). by vm_compute. Qed.

Lemma unshuffled_complete (c : Card) : c ∈ _cards unshuffled.
Proof.
  apply (bool_decide_unpack _). by destruct c as [[] []]; vm_compute.
Qed.

Lemma Deck___init___cards (shuffle : bool) (tape : list nat) :
  length (_cards (Deck___init__ shuffle tape)) = 52%nat
  ∧ NoDup (_cards (Deck___init__ shuffle tape))
  ∧ (∀ c, c ∈ _cards (Deck___init__ shuffle tape))
  ∧ _draw_index (Deck___init__ shuffle tape) = 0%nat
  ∧ remaining (Deck___init__ shuffle tape) = _cards (Deck___init__ shuffle tape).
Proof.
  pose proof (Deck___init___Permutation shuffle tape) as Hperm.
  repeat split.
  - by rewrite Hperm.
  - rewrite Hperm. apply unshuffled_NoDup.
  - intros c. rewrite Hperm. apply unshuffled_complete.
  - rewrite remaining_drop. done.
Qed.

Lemma Deck_draw_Some (self : Deck) (card : Card) :
  _cards self !! _draw_index self = Some card →
  Deck_draw self =
    (Some card, {| _cards := _cards self; _draw_index := _draw_index self + 1 |}).
Proof.
  intros Hcard. unfold Deck_draw. rewrite Hcard.
  apply lookup_lt_Some in Hcard. rewrite decide_False by lia. done.
Qed.

Lemma Deck_draw_None (self : Deck) :
  (length (_cards self) ≤ _draw_index self)%nat → Deck_draw self = (None, self).
Proof. intros Hend. unfold Deck_draw. by rewrite decide_True. Qed.

Lemma draw_many_spec (n : nat) (self : Deck) :
  (_draw_index self + n ≤ length (_cards self))%nat →
  draw_many n self =
    (Some <$> take n (drop (_draw_index self) (_cards self)),
     {| _cards := _cards self; _draw_index := _draw_index self + n |}).
Proof.
  revert self. induction n as [| n IH]; intros [cards i] Hle; simpl in *.
  - do 2 f_equal. lia.
  - destruct (lookup_lt_is_Some_2 cards i) as [card Hcard]; [lia |].
    rewrite (Deck_draw_Some (mkDeck cards i) card Hcard). simpl.
    rewrite IH by (simpl; lia). simpl.
    rewrite (drop_S cards card i Hcard). simpl.
    rewrite <- Nat.add_assoc. simpl. by rewrite Nat.add_1_r.
Qed.

(** ** The order on cards *)

(** C5: [Card(r1, s1) < Card(r2, s2)] is true exactly when the strength of
    [r1] is below that of [r2], or the strengths are equal and the tiebreak
    order of [s1] is below that of [s2]. *)
Theorem Card_lt_rank_then_suit (r1 r2 : CardRank) (s1 s2 : CardSuit) :
  Card___lt__ (mkCard r1 s1) (PyCard (mkCard r2 s2)) = Return true ↔
    CardRank_value r1 < CardRank_value r2
    ∨ (CardRank_value r1 = CardRank_value r2 ∧ CardSuit_value s1 < CardSuit_value s2).
Proof.
  unfold Card___lt__, Card_ltb. simpl.
  destruct (Z.ltb_spec (CardRank_value r1) (CardRank_value r2)) as [Hlt | Hge].
  - split; [by left | done].
  - rewrite Z.gtb_ltb.
    destruct (Z.ltb_spec (CardRank_value r2) (CardRank_value r1)) as [Hgt | Hle].
    + split; [done | lia].
    + destruct (Z.ltb_spec (CardSuit_value s1) (CardSuit_value s2)) as [Hs | Hs].
      * split; [intros _; right; lia | done].
      * split; [done | lia].
Qed.

(** ** Construction and drawing *)

(** C6: a new deck holds 52 cards, every (rank, suit) pair once and no card
    twice, with the cursor at 0; built without shuffling, the card of rank
    [r] and suit [s] sits at position [13 * (s.value - 1) + (r.value - 2)],
    that is all ranks of suit 1 in order, then all ranks of suit 2, and so
    on. *)
Theorem Deck___init___fresh (shuffle : bool) (tape : list nat) :
  length (_cards (Deck___init__ shuffle tape)) = 52%nat
  ∧ NoDup (_cards (Deck___init__ shuffle tape))
  ∧ (∀ r s, mkCard r s ∈ _cards (Deck___init__ shuffle tape))
  ∧ _draw_index (Deck___init__ shuffle tape) = 0%nat
  ∧ remaining (Deck___init__ shuffle tape) = _cards (Deck___init__ shuffle tape)
  ∧ (∀ r s, _cards (Deck___init__ false tape)
              !! Z.to_nat (13 * (CardSuit_value s - 1) + (CardRank_value r - 2))
            = Some (mkCard r s)).
Proof.
  destruct (Deck___init___cards shuffle tape) as (Hlen & Hnd & Hall & Hidx & Hrem).
  repeat split; try done.
  by intros [] [].
Qed.

(** C7: [N ≤ 52] draws from a new deck return, in order, the cards at
    positions [0 .. N-1] of the deck, each draw moving the cursor one
    further, and leave [52 - N] cards; after 52 draws one more draw returns
    [None] and changes nothing. *)
Theorem draw_many_from_fresh (shuffle : bool) (tape : list nat) (N : nat) :
  (N ≤ 52)%nat →
  draw_many N (Deck___init__ shuffle tape) =
    (Some <$> take N (_cards (Deck___init__ shuffle tape)),
     {| _cards := _cards (Deck___init__ shuffle tape); _draw_index := N |})
  ∧ Deck___len__ (snd (draw_many N (Deck___init__ shuffle tape))) = 52 - Z.of_nat N
  ∧ Deck_draw (snd (draw_many 52 (Deck___init__ shuffle tape))) =
      (None, snd (draw_many 52 (Deck___init__ shuffle tape))).
Proof.
  intros HN.
  destruct (Deck___init___cards shuffle tape) as (Hlen & _ & _ & Hidx & _).
  assert (Hmany : ∀ n, (n ≤ 52)%nat →
    draw_many n (Deck___init__ shuffle tape) =
      (Some <$> take n (_cards (Deck___init__ shuffle tape)),
       {| _cards := _cards (Deck___init__ shuffle tape); _draw_index := n |})).
  { intros n Hn. rewrite draw_many_spec by (rewrite Hidx, Hlen; lia).
    by rewrite Hidx. }
  split; [by apply Hmany | split].
  - rewrite (Hmany N HN). unfold Deck___len__.
    cbn [snd _cards _draw_index]. rewrite Hlen. lia.
  - rewrite (Hmany 52%nat) by lia. cbn [snd].
    apply Deck_draw_None. cbn [_cards _draw_index]. rewrite Hlen. lia.
Qed.

Lemma draw_many_from_fresh_witness :
  draw_many 3 (Deck___init__ false []) =
    (Some <$> take 3 (_cards (Deck___init__ false [])),
     {| _cards := _cards (Deck___init__ false []); _draw_index := 3 |})
  ∧ Deck___len__ (snd (draw_many 3 (Deck___init__ false []))) = 52 - Z.of_nat 3
  ∧ Deck_draw (snd (draw_many 52 (Deck___init__ false []))) =
      (None, snd (draw_many 52 (Deck___init__ false []))).
Proof. apply (draw_many_from_fresh false [] 3). lia. Defined.

(** ** Adding cards and the guard *)

Lemma Deck_add_card_unfold (c : Card) (self : Deck) :
  Deck_add_card (PyCard c) self =
    if decide (c ∈ remaining self) then (Raise DeckCheatingError, self)
    else if decide (NoDup (_cards self ++ [c])) then (Return (), appended c self)
    else (Raise DeckCheatingError, appended c self).
Proof.
  unfold Deck_add_card. rewrite fair_deck_unfold. unfold Deck_add_card_func.
  destruct (list_contains c (remaining self)) eqn:Hin.
  - apply list_contains_elem_of in Hin. by rewrite decide_True.
  - assert (Hout : c ∉ remaining self)
      by (rewrite <- list_contains_elem_of; congruence).
    destruct (decide (c ∈ remaining self)); [done | reflexivity].
Qed.

Lemma Deck_add_card_not_card (card : PyVal) (self : Deck) :
  (∀ c, card ≠ PyCard c) → Deck_add_card card self = (Raise TypeError, self).
Proof.
  intros Hcard. unfold Deck_add_card, fair_deck, Deck_add_card_func.
  destruct card; try done. by destruct (Hcard c).
Qed.

(** A card equal to one before the cursor and to none after it gets past
    the membership test of [add_card], is appended, and is then found twice
    by the guard. *)
Lemma Deck_add_card_drawn (c : Card) (self : Deck) :
  c ∈ take (_draw_index self) (_cards self) →
  c ∉ remaining self →
  Deck_add_card (PyCard c) self = (Raise DeckCheatingError, appended c self).
Proof.
  intros Hdrawn Hout. rewrite Deck_add_card_unfold.
  rewrite decide_False by done.
  rewrite decide_False; [done |].
  rewrite NoDup_app. intros (_ & Hsep & _).
  apply (Hsep c); [| by apply list_elem_of_singleton].
  apply (elem_of_sublist _ _ _ Hdrawn), sublist_take.
Qed.

Lemma remaining_appended (c : Card) (self : Deck) :
  c ∉ remaining self → NoDup (remaining self) → NoDup (remaining (appended c self)).
Proof.
  rewrite !remaining_drop. unfold appended. simpl.
  intros Hc Hnd. rewrite drop_app. apply NoDup_app. split; [done | split].
  - intros x Hx Hx'. apply (elem_of_sublist _ [c]) in Hx'; [| apply sublist_drop].
    apply list_elem_of_singleton in Hx' as ->. done.
  - apply (sublist_NoDup _ [c]); [apply NoDup_singleton | apply sublist_drop].
Qed.

Lemma Deck_add_card_remaining_NoDup (card : PyVal) (self : Deck) :
  NoDup (remaining self) → NoDup (remaining (snd (Deck_add_card card self))).
Proof.
  intros Hnd. destruct card as [| | | | | | c];
    try (by rewrite Deck_add_card_not_card).
  rewrite Deck_add_card_unfold.
  destruct (decide (c ∈ remaining self)); [done |].
  destruct (decide (NoDup (_cards self ++ [c]))); by apply remaining_appended.
Qed.

Lemma Deck_draw_remaining_NoDup (self : Deck) :
  NoDup (remaining self) → NoDup (remaining (snd (Deck_draw self))).
Proof.
  unfold Deck_draw. case_decide; [done |].
  destruct (_cards self !! _draw_index self) as [card |]; [| done]. simpl.
  rewrite !remaining_drop. simpl. intros Hnd.
  rewrite <- drop_drop.
  apply (sublist_NoDup _ _ Hnd), sublist_drop.
Qed.

(** One call keeps the remaining cards free of duplicates, provided a
    shuffle starts from a [_cards] list free of duplicates. *)
Lemma call_remaining_NoDup (c : Call) (self : Deck) :
  shuffles_clean [c] self = true →
  NoDup (remaining self) → NoDup (remaining (call c self)).
Proof.
  intros Hclean Hnd. destruct c as [tape | | card |]; simpl in *.
  - rewrite andb_true_r in Hclean. apply bool_decide_eq_true in Hclean.
    rewrite remaining_drop. simpl.
    by rewrite random_shuffle_Permutation.
  - by apply Deck_draw_remaining_NoDup.
  - by apply Deck_add_card_remaining_NoDup.
  - rewrite Deck_cards_unfold. by case_decide.
Qed.

Lemma calls_remaining_NoDup (cs : list Call) (self : Deck) :
  shuffles_clean cs self = true →
  NoDup (remaining self) → NoDup (remaining (calls cs self)).
Proof.
  revert self. induction cs as [| c cs IH]; intros self Hclean Hnd; [done |].
  simpl in Hclean. apply andb_true_iff in Hclean as [Hc Hcs].
  apply (IH (call c self) Hcs), call_remaining_NoDup; [| done].
  simpl. by rewrite Hc.
Qed.

(** C1, as stated, fails: drawing the first card of an unshuffled deck,
    adding that card again and shuffling leaves 53 remaining cards with the
    two of clubs twice among them. *)
Lemma remaining_NoDup_counterexample :
  ¬ (∀ (shuffle : bool) (tape : list nat) (cs : list Call),
       NoDup (remaining (calls cs (Deck___init__ shuffle tape)))).
Proof.
  intros Hall.
  specialize (Hall false [] [CallDraw; CallAddCard (PyCard two_of_clubs); CallShuffle []]).
  revert Hall. apply (bool_decide_eq_false_1 (NoDup _)). by vm_compute.
Qed.

(** C1, amended: from a new deck, after any sequence of shuffle, draw,
    add-card and remaining-cards calls (raising or not) in which every
    shuffle starts from an underlying sequence without duplicates, the
    remaining cards contain no duplicates. *)
Theorem remaining_NoDup_reachable (shuffle : bool) (tape : list nat) (cs : list Call) :
  shuffles_clean cs (Deck___init__ shuffle tape) = true →
  NoDup (remaining (calls cs (Deck___init__ shuffle tape))).
Proof.
  intros Hclean. apply calls_remaining_NoDup; [done |].
  destruct (Deck___init___cards shuffle tape) as (_ & Hnd & _ & _ & ->). done.
Qed.

Lemma remaining_NoDup_reachable_witness :
  NoDup (remaining (calls [CallShuffle [5; 3]%nat; CallDraw;
                           CallAddCard (PyCard two_of_clubs); CallCards;
                           CallAddCard (PyStr "joker"); CallDraw]
                          (Deck___init__ true [7; 1]%nat))).
Proof. apply remaining_NoDup_reachable. by vm_compute. Defined.

(** C2, as stated, fails: adding a card that is still among the remaining
    cards raises [DeckCheatingError] from the body of [add_card], before
    anything is appended. *)
Lemma add_card_appended_counterexample :
  ¬ (∀ (self : Deck) (c : Card),
       fst (Deck_add_card (PyCard c) self) = Raise CheatingDetected →
       _cards (snd (Deck_add_card (PyCard c) self)) = _cards self ++ [c]).
Proof.
  intros Hall. specialize (Hall unshuffled two_of_clubs).
  assert (Hraise : fst (Deck_add_card (PyCard two_of_clubs) unshuffled)
                   = Raise CheatingDetected) by by vm_compute.
  apply Hall in Hraise. apply (f_equal length) in Hraise.
  by vm_compute in Hraise.
Qed.

(** C2, amended: an [add_card] call that raises [DeckCheatingError] was
    either stopped by its own membership test against the remaining cards,
    and then the deck is unchanged, or it was stopped by the guard after its
    body ran, and then the card is already appended to the underlying
    sequence, the cursor is unchanged and that sequence holds a duplicate. *)
Theorem add_card_cheating_effect (self self' : Deck) (c : Card) :
  Deck_add_card (PyCard c) self = (Raise CheatingDetected, self') →
  (c ∈ remaining self ∧ self' = self)
  ∨ ((c ∉ remaining self)
     ∧ _cards self' = _cards self ++ [c]
     ∧ _draw_index self' = _draw_index self
     ∧ ¬ NoDup (_cards self')).
Proof.
  rewrite Deck_add_card_unfold.
  destruct (decide (c ∈ remaining self)) as [Hin | Hout].
  - intros [= <-]. by left.
  - destruct (decide (NoDup (_cards self ++ [c]))) as [Hnd | Hdup]; [done |].
    intros [= <-]. right. done.
Qed.

Lemma add_card_cheating_effect_witness :
  (two_of_clubs ∈ remaining after_one_draw ∧ after_readd = after_one_draw)
  ∨ ((two_of_clubs ∉ remaining after_one_draw)
     ∧ _cards after_readd = _cards after_one_draw ++ [two_of_clubs]
     ∧ _draw_index after_readd = _draw_index after_one_draw
     ∧ ¬ NoDup (_cards after_readd)).
Proof.
  apply (add_card_cheating_effect after_one_draw after_readd two_of_clubs).
  by vm_compute.
Defined.

(** C3, the code at the failing input: the two of clubs has been drawn from
    an unshuffled deck and is no longer among the remaining cards; adding it
    appends it and then raises [DeckCheatingError]. *)
Theorem add_card_drawn_card_raises :
  fst (Deck_draw unshuffled) = Some two_of_clubs
  ∧ two_of_clubs ∈ take (_draw_index after_one_draw) (_cards after_one_draw)
  ∧ (two_of_clubs ∉ remaining after_one_draw)
  ∧ Deck_add_card (PyCard two_of_clubs) after_one_draw =
      (Raise CheatingDetected, appended two_of_clubs after_one_draw).
Proof.
  split; [by vm_compute | split; [| split]].
  - apply (bool_decide_unpack _). by vm_compute.
  - apply (bool_decide_eq_false_1 (_ ∈ _)). by vm_compute.
  - by vm_compute.
Qed.

(** C4, the code at the failing input: after that call the remaining cards
    hold no duplicate, yet reading the [cards] property raises
    [DeckCheatingError]. *)
Theorem cards_raises_without_live_duplicate :
  NoDup (remaining after_readd)
  ∧ Deck_cards after_readd = (Raise CheatingDetected, after_readd).
Proof.
  split; [| by vm_compute].
  apply (bool_decide_unpack _). by vm_compute.
Qed.

(** ** Index access and error kinds *)

Lemma Card___init___invalid (rank suit : PyVal) :
  (∀ r s, (rank, suit) ≠ (PyRank r, PySuit s)) →
  Card___init__ rank suit = Raise InvalidArgument.
Proof.
  intros Hbad. destruct rank, suit; try done. by destruct (Hbad r s).
Qed.

Lemma Card_compare_type_mismatch (self : Card) (other : PyVal) :
  (∀ c, other ≠ PyCard c) →
  Card___eq__ self other = Raise TypeMismatch
  ∧ Card___lt__ self other = Raise TypeMismatch
  ∧ Card___gt__ self other = Raise TypeMismatch.
Proof.
  intros Hother. destruct other; try done. by destruct (Hother c).
Qed.

Lemma list_getitem_nonneg {A} (l : list A) (i : nat) (x : A) :
  l !! i = Some x → list_getitem l (Z.of_nat i) = Return x.
Proof.
  intros Hx. unfold list_getitem.
  destruct (Z.ltb_spec (Z.of_nat i) 0) as [| _]; [lia |].
  destruct (Z.ltb_spec (Z.of_nat i) 0) as [| _]; [lia |].
  by rewrite Nat2Z.id, Hx.
Qed.

(** C8, as stated, fails: an index that is not an integer is rejected with
    [TypeError], the exception of the type-mismatch kind, and not with the
    [ValueError] that signals an invalid argument. *)
Lemma getitem_invalid_argument_counterexample :
  ¬ (∀ (self : Deck) (index : PyVal),
       as_int index = None → Deck___getitem__ self index = Raise InvalidArgument).
Proof.
  intros Hall. by specialize (Hall unshuffled (PyStr "0") eq_refl).
Qed.

(** C8, amended: for an integer index [i] with [0 ≤ i < len(deck)] the
    accessor returns the [i]-th remaining card; for a negative integer or
    one at or past [len(deck)] it raises [IndexError]; for an index that is
    not an integer it raises [TypeError], the same exception a comparison
    with a non-card raises. *)
Theorem Deck___getitem___spec (self : Deck) (index : PyVal) :
  match as_int index with
  | Some i =>
      if decide (0 ≤ i < Deck___len__ self)
      then ∃ card, remaining self !! Z.to_nat i = Some card
                   ∧ Deck___getitem__ self index = Return card
      else Deck___getitem__ self index = Raise IndexOutOfRange
  | None => Deck___getitem__ self index = Raise TypeMismatch
  end.
Proof.
  unfold Deck___getitem__. destruct (as_int index) as [i |]; [| done].
  unfold Deck___len__. case_decide as Hi.
  - destruct (Z.leb_spec 0 i) as [_ |]; [| lia].
    destruct (Z.ltb_spec i (Z.of_nat (length (_cards self)) - Z.of_nat (_draw_index self)))
      as [_ |]; [| lia]. simpl.
    destruct (lookup_lt_is_Some_2 (_cards self) (_draw_index self + Z.to_nat i))
      as [card Hcard]; [lia |].
    exists card. split.
    + by rewrite remaining_drop, lookup_drop.
    + replace (Z.of_nat (_draw_index self) + i)
        with (Z.of_nat (_draw_index self + Z.to_nat i)) by lia.
      by apply list_getitem_nonneg.
  - destruct (Z.leb_spec 0 i); [| done].
    destruct (Z.ltb_spec i (Z.of_nat (length (_cards self)) - Z.of_nat (_draw_index self)));
      [lia | done].
Qed.

(** ** Statistics over six cards *)

(** C9, as stated, fails: the king of clubs is not part of the ['max']
    entry, whichever way the listing is read. *)
Lemma cards_stats_max_counterexample :
  ¬ (∃ (results : gmap string StatValue) (top : list Card),
       fst (cards_stats six_cards six_options) = Return results
       ∧ results !! "max" = Some (StatCards top)
       ∧ mkCard KING CLUBS ∈ top).
Proof.
  intros (results & top & Hres & Hmax & Hking).
  vm_compute in Hres. injection Hres as <-.
  vm_compute in Hmax. injection Hmax as <-.
  revert Hking. apply (bool_decide_eq_false_1 (_ ∈ _)). by vm_compute.
Qed.

(** C9, amended: over these six cards and with these options the result
    maps ['max'] to the ace of diamonds followed by the ace of spades,
    ['min'] to the two of hearts alone and ['len'] to 6, has no other key,
    and nothing is printed. *)
Theorem cards_stats_six_cards :
  cards_stats six_cards six_options =
    (Return (<["max" := StatCards [mkCard ACE DIAMONDS; mkCard ACE SPADES]]>
             (<["min" := StatCards [mkCard TWO HEARTS]]>
              (<["len" := StatLen 6]> ∅))), []).
Proof. by vm_compute. Qed.

(** ** The returned list is a copy *)

Lemma new_list_fresh (l : list Card) (w : World) :
  World_wf w →
  fst (new_list l w) ≠ self_cards w
  ∧ (fst (new_list l w) ∉ dom (heap w))
  ∧ heap (snd (new_list l w)) !! fst (new_list l w) = Some l
  ∧ deck_of (snd (new_list l w)) = deck_of w
  ∧ World_wf (snd (new_list l w)).
Proof.
  unfold World_wf, new_list, deck_of. simpl. intros Hwf.
  pose proof (is_fresh (dom (heap w))) as Hfresh.
  assert (Hne : fresh (dom (heap w)) ≠ self_cards w) by congruence.
  repeat split; try done.
  - by rewrite lookup_insert_eq.
  - by rewrite lookup_insert_ne.
  - rewrite dom_insert_L. apply elem_of_union. by right.
Qed.

Lemma World_list_op_frame (r : positive) (o : ListOp) (w : World) :
  r ≠ self_cards w →
  deck_of (World_list_op r o w) = deck_of w
  ∧ self_cards (World_list_op r o w) = self_cards w
  ∧ dom (heap (World_list_op r o w)) = dom (heap w).
Proof.
  intros Hne. unfold World_list_op, deck_of. simpl.
  rewrite lookup_alter_ne by done. split; [done | split; [done |]].
  apply dom_alter_L.
Qed.

Lemma World_list_ops_frame (r : positive) (os : list ListOp) (w : World) :
  r ≠ self_cards w →
  deck_of (World_list_ops r os w) = deck_of w
  ∧ self_cards (World_list_ops r os w) = self_cards w
  ∧ dom (heap (World_list_ops r os w)) = dom (heap w).
Proof.
  revert w. induction os as [| o os IH]; intros w Hne; [done |].
  destruct (World_list_op_frame r o w Hne) as (Hdeck & Hself & Hdom).
  unfold World_list_ops in *. simpl.
  destruct (IH (World_list_op r o w)) as (Hdeck' & Hself' & Hdom'); [congruence |].
  split; [congruence | split; congruence].
Qed.

(** C10: reading the [cards] property hands out a list object other than
    the deck's own, holding the remaining cards; whatever the caller then
    does to that object, the deck is as before: same length, same card at
    every index, same next draw, and the next reading of the property
    gives yet another object with the same remaining cards. *)
Theorem World_cards_is_copy (w : World) :
  World_wf w →
  match World_cards w with
  | (Raise e, w') => w' = w
  | (Return r, w') =>
      r ≠ self_cards w'
      ∧ heap w' !! r = Some (remaining (deck_of w))
      ∧ ∀ os : list ListOp,
          deck_of (World_list_ops r os w') = deck_of w
          ∧ Deck___len__ (deck_of (World_list_ops r os w')) = Deck___len__ (deck_of w)
          ∧ (∀ index, Deck___getitem__ (deck_of (World_list_ops r os w')) index
                      = Deck___getitem__ (deck_of w) index)
          ∧ fst (World_method Deck_draw (World_list_ops r os w'))
            = fst (World_method Deck_draw w)
          ∧ ∃ r2 w2, World_cards (World_list_ops r os w') = (Return r2, w2)
                     ∧ r2 ≠ r
                     ∧ r2 ≠ self_cards w2
                     ∧ heap w2 !! r2 = Some (remaining (deck_of w))
  end.
Proof.
  intros Hwf. unfold World_cards at 1. rewrite Deck_cards_unfold.
  destruct (decide (NoDup (_cards (deck_of w)))) as [Hnd |]; [| done].
  destruct (new_list (remaining (deck_of w)) w) as [r w'] eqn:Hnew.
  destruct (new_list_fresh (remaining (deck_of w)) w Hwf)
    as (Hne & Hfresh & Hget & Hdeck & Hwf').
  rewrite Hnew in Hne, Hfresh, Hget, Hdeck, Hwf'. simpl in *.
  assert (Hself : self_cards w' = self_cards w).
  { unfold new_list in Hnew. by injection Hnew as _ <-. }
  assert (Hdom : dom (heap w') = {[r]} ∪ dom (heap w)).
  { unfold new_list in Hnew. injection Hnew as <- <-. simpl. apply dom_insert_L. }
  split; [congruence | split; [done |]]. intros os.
  destruct (World_list_ops_frame r os w') as (Hdeck' & Hself' & Hdom'); [congruence |].
  assert (Hsame : deck_of (World_list_ops r os w') = deck_of w) by congruence.
  split; [done |]. rewrite !Hsame.
  split; [done | split; [done | split]].
  - unfold World_method. rewrite Hsame. by destruct (Deck_draw (deck_of w)).
  - assert (Hwf'' : World_wf (World_list_ops r os w')).
    { unfold World_wf in *. rewrite Hself', Hdom'. done. }
    unfold World_cards. rewrite Deck_cards_unfold, Hsame, decide_True by done.
    destruct (new_list (remaining (deck_of w)) (World_list_ops r os w'))
      as [r2 w2] eqn:Hnew2.
    destruct (new_list_fresh (remaining (deck_of w)) (World_list_ops r os w') Hwf'')
      as (Hne2 & Hfresh2 & Hget2 & _ & _).
    rewrite Hnew2 in Hne2, Hfresh2, Hget2. simpl in *.
    exists r2, w2. split; [done | split; [| split; [| done]]].
    + intros ->. apply Hfresh2. rewrite Hdom', Hdom. apply elem_of_union. left.
      by apply elem_of_singleton.
    + unfold new_list in Hnew2. injection Hnew2 as _ <-. simpl. done.
Qed.

Lemma World_cards_is_copy_witness :
  match World_cards unshuffled_world with
  | (Raise e, w') => w' = unshuffled_world
  | (Return r, w') =>
      r ≠ self_cards w'
      ∧ heap w' !! r = Some (remaining (deck_of unshuffled_world))
      ∧ ∀ os : list ListOp,
          deck_of (World_list_ops r os w') = deck_of unshuffled_world
          ∧ Deck___len__ (deck_of (World_list_ops r os w'))
            = Deck___len__ (deck_of unshuffled_world)
          ∧ (∀ index, Deck___getitem__ (deck_of (World_list_ops r os w')) index
                      = Deck___getitem__ (deck_of unshuffled_world) index)
          ∧ fst (World_method Deck_draw (World_list_ops r os w'))
            = fst (World_method Deck_draw unshuffled_world)
          ∧ ∃ r2 w2, World_cards (World_list_ops r os w') = (Return r2, w2)
                     ∧ r2 ≠ r
                     ∧ r2 ≠ self_cards w2
                     ∧ heap w2 !! r2 = Some (remaining (deck_of unshuffled_world))
  end.
Proof.
  apply (World_cards_is_copy unshuffled_world).
  unfold World_wf, unshuffled_world. simpl.
  rewrite dom_singleton_L. by apply elem_of_singleton.
Defined.

(** ** Further properties of cards *)

Lemma CardRank_value_inj (r1 r2 : CardRank) :
  CardRank_value r1 = CardRank_value r2 → r1 = r2.
Proof. by destruct r1, r2. Qed.

Lemma CardSuit_value_inj (s1 s2 : CardSuit) :
  CardSuit_value s1 = CardSuit_value s2 → s1 = s2.
Proof. by destruct s1, s2. Qed.

(** [Card_ltb] and [Card_gtb] as a lexicographic comparison of the values. *)
Lemma Card_ltb_lt (a b : Card) :
  Card_ltb a b = true ↔
    CardRank_value (rank a) < CardRank_value (rank b)
    ∨ (CardRank_value (rank a) = CardRank_value (rank b)
       ∧ CardSuit_value (suit a) < CardSuit_value (suit b)).
Proof.
  unfold Card_ltb. rewrite Z.gtb_ltb.
  destruct (Z.ltb_spec (CardRank_value (rank a)) (CardRank_value (rank b)));
    [split; [by left | done] |].
  destruct (Z.ltb_spec (CardRank_value (rank b)) (CardRank_value (rank a)));
    [split; [done | lia] |].
  rewrite Z.ltb_lt. lia.
Qed.

Lemma Card_gtb_ltb (a b : Card) : Card_gtb a b = Card_ltb b a.
Proof.
  unfold Card_gtb, Card_ltb. rewrite !Z.gtb_ltb.
  destruct (Z.ltb_spec (CardRank_value (rank b)) (CardRank_value (rank a)));
    [done |].
  destruct (Z.ltb_spec (CardRank_value (rank a)) (CardRank_value (rank b)));
    done.
Qed.

Lemma Card_ltb_irrefl (a : Card) : Card_ltb a a = false.
Proof.
  apply not_true_iff_false. rewrite Card_ltb_lt. lia.
Qed.

Lemma Card_ltb_trans (a b c : Card) :
  Card_ltb a b = true → Card_ltb b c = true → Card_ltb a c = true.
Proof. rewrite !Card_ltb_lt. lia. Qed.

Lemma Card_ltb_total (a b : Card) :
  Card_ltb a b = false → Card_ltb b a = false → a = b.
Proof.
  intros Hab%not_true_iff_false Hba%not_true_iff_false.
  rewrite Card_ltb_lt in Hab, Hba.
  destruct a as [ra sa], b as [rb sb]. simpl in *.
  assert (ra = rb) as -> by (apply CardRank_value_inj; lia).
  assert (sa = sb) as -> by (apply CardSuit_value_inj; lia).
  done.
Qed.

Lemma Card_le_trans (a b c : Card) : Card_le a b → Card_le b c → Card_le a c.
Proof.
  unfold Card_le. intros Hab%not_true_iff_false Hbc%not_true_iff_false.
  apply not_true_iff_false. rewrite Card_ltb_lt in *. lia.
Qed.

(** X1: [a == b] on two cards is [True] exactly when they have the same
    rank and the same suit; so [==] is reflexive, symmetric and
    transitive. *)
Theorem Card___eq___same_card (a b c : Card) :
  (Card___eq__ a (PyCard b) = Return true ↔ rank a = rank b ∧ suit a = suit b)
  ∧ Card___eq__ a (PyCard a) = Return true
  ∧ Card___eq__ a (PyCard b) = Card___eq__ b (PyCard a)
  ∧ (Card___eq__ a (PyCard b) = Return true →
     Card___eq__ b (PyCard c) = Return true →
     Card___eq__ a (PyCard c) = Return true).
Proof.
  assert (Heq : ∀ x y, Card___eq__ x (PyCard y) = Return true ↔ x = y).
  { intros x y. simpl. rewrite <- Card_eqb_eq.
    split; [by intros [= ->] | by intros ->]. }
  split; [| split; [| split]].
  - split; [by intros ->%Heq |].
    intros [Hr Hs]. apply Heq. destruct a, b; simpl in *; congruence.
  - by apply Heq.
  - simpl. f_equal. unfold Card_eqb.
    apply eq_true_iff_eq. rewrite !andb_true_iff, !bool_decide_eq_true.
    split; intros [-> ->]; done.
  - intros ->%Heq ->%Heq. by apply Heq.
Qed.

Lemma Card___eq___same_card_witness :
  Card___eq__ two_of_clubs (PyCard two_of_clubs) = Return true.
Proof.
  apply (Card___eq___same_card two_of_clubs two_of_clubs two_of_clubs);
    reflexivity.
Defined.

(** X2: [a > b] on two cards gives what [b < a] gives. *)
Theorem Card___gt___converse (a b : Card) :
  Card___gt__ a (PyCard b) = Card___lt__ b (PyCard a).
Proof. simpl. by rewrite Card_gtb_ltb. Qed.

(** X3: on two cards exactly one of [a < b], [a == b], [a > b] is [True]. *)
Theorem Card_trichotomy (a b : Card) :
  (Card___lt__ a (PyCard b) = Return true
   ∧ Card___eq__ a (PyCard b) = Return false
   ∧ Card___gt__ a (PyCard b) = Return false)
  ∨ (Card___lt__ a (PyCard b) = Return false
     ∧ Card___eq__ a (PyCard b) = Return true
     ∧ Card___gt__ a (PyCard b) = Return false)
  ∨ (Card___lt__ a (PyCard b) = Return false
     ∧ Card___eq__ a (PyCard b) = Return false
     ∧ Card___gt__ a (PyCard b) = Return true).
Proof.
  simpl. rewrite Card_gtb_ltb.
  destruct (Card_ltb a b) eqn:Hab, (Card_ltb b a) eqn:Hba.
  - pose proof (Card_ltb_trans a b a Hab Hba) as Haa.
    by rewrite Card_ltb_irrefl in Haa.
  - left. repeat split. f_equal. apply not_true_iff_false.
    intros ->%Card_eqb_eq. by rewrite Card_ltb_irrefl in Hab.
  - right. right. repeat split. f_equal. apply not_true_iff_false.
    intros ->%Card_eqb_eq. by rewrite Card_ltb_irrefl in Hba.
  - right. left. repeat split. f_equal. apply Card_eqb_eq.
    by apply Card_ltb_total.
Qed.

(** X4: [<] on cards is a strict order: no card is below itself, and
    [a < b] with [b < c] gives [a < c]. *)
Theorem Card___lt___strict_order (a b c : Card) :
  Card___lt__ a (PyCard a) = Return false
  ∧ (Card___lt__ a (PyCard b) = Return true →
     Card___lt__ b (PyCard c) = Return true →
     Card___lt__ a (PyCard c) = Return true).
Proof.
  simpl. split; [by rewrite Card_ltb_irrefl |].
  intros [= Hab] [= Hbc]. f_equal. by apply (Card_ltb_trans a b c).
Qed.

Lemma Card___lt___strict_order_witness :
  Card___lt__ two_of_clubs (PyCard (mkCard ACE CLUBS)) = Return true.
Proof.
  apply (Card___lt___strict_order two_of_clubs (mkCard TWO SPADES) (mkCard ACE CLUBS));
    reflexivity.
Defined.

(** X5: comparing a card with anything that is not a card raises
    [TypeError], for [==], [<] and [>] alike; no comparison answers
    [False] for a foreign value. *)
Theorem Card_compare_non_card (self : Card) (other : PyVal) :
  (∀ c, other ≠ PyCard c) →
  Card___eq__ self other = Raise TypeError
  ∧ Card___lt__ self other = Raise TypeError
  ∧ Card___gt__ self other = Raise TypeError.
Proof. apply Card_compare_type_mismatch. Qed.

Lemma Card_compare_non_card_witness :
  Card___eq__ two_of_clubs (PyStr "string") = Raise TypeError
  ∧ Card___lt__ two_of_clubs (PyStr "string") = Raise TypeError
  ∧ Card___gt__ two_of_clubs (PyStr "string") = Raise TypeError.
Proof. apply (Card_compare_non_card two_of_clubs (PyStr "string")). done. Defined.

Lemma NoDup_fmap_inj_on {A B} (f : A → B) (l : list A) (x y : A) :
  NoDup (f <$> l) → x ∈ l → y ∈ l → f x = f y → x = y.
Proof.
  intros Hnd [i Hi]%list_elem_of_lookup [j Hj]%list_elem_of_lookup Hf.
  assert (i = j) as ->; [| congruence].
  apply (NoDup_lookup _ i j (f x) Hnd).
  - by rewrite list_lookup_fmap, Hi.
  - by rewrite list_lookup_fmap, Hj, Hf.
Qed.

(** X6: the display name tells cards apart: two cards with the same
    display name (which is also what [str] gives) are the same card, and so
    for [repr]. *)
Theorem Card_names_injective (a b : Card) :
  (Card___str__ a = Card___str__ b → a = b)
  ∧ (Card_get_display_name a = Card_get_display_name b → a = b)
  ∧ (Card___repr__ a = Card___repr__ b → a = b).
Proof.
  assert (Hd : ∀ x y, Card_get_display_name x = Card_get_display_name y → x = y).
  { intros x y. apply (NoDup_fmap_inj_on _ (_cards unshuffled));
      [| apply unshuffled_complete | apply unshuffled_complete].
    apply (bool_decide_unpack _). by vm_compute. }
  split; [apply Hd | split; [apply Hd |]].
  apply (NoDup_fmap_inj_on _ (_cards unshuffled));
    [| apply unshuffled_complete | apply unshuffled_complete].
  apply (bool_decide_unpack _). by vm_compute.
Qed.

Lemma Card_names_injective_witness :
  Card___str__ two_of_clubs = "Two of Clubs"%string
  ∧ (Card___str__ two_of_clubs = Card___str__ (mkCard TWO CLUBS) →
     two_of_clubs = mkCard TWO CLUBS).
Proof.
  split; [reflexivity |].
  apply (Card_names_injective two_of_clubs (mkCard TWO CLUBS)).
Defined.

(** ** Further properties of the deck *)

Lemma Deck_draw_unfold (self : Deck) :
  Deck_draw self =
    (_cards self !! _draw_index self,
     if decide (_draw_index self < length (_cards self))%nat
     then {| _cards := _cards self; _draw_index := _draw_index self + 1 |}
     else self).
Proof.
  unfold Deck_draw. case_decide as Hend.
  - rewrite decide_False by lia. by rewrite lookup_ge_None_2.
  - rewrite decide_True by lia.
    by destruct (lookup_lt_is_Some_2 (_cards self) (_draw_index self)) as [c ->];
      [lia |].
Qed.

Lemma call__cards (c : Call) (self : Deck) :
  (∃ tape, c = CallShuffle tape ∧ _cards (call c self) ≡ₚ _cards self)
  ∨ _cards (call c self) = _cards self
  ∨ (∃ card, _cards (call c self) = _cards self ++ [card]
             ∧ _draw_index (call c self) = _draw_index self).
Proof.
  destruct c as [tape | | card |]; simpl.
  - left. exists tape. split; [done | apply random_shuffle_Permutation].
  - right. left. rewrite Deck_draw_unfold. simpl. by case_decide.
  - destruct card as [| | | | | | c];
      try (right; left; by rewrite Deck_add_card_not_card).
    rewrite Deck_add_card_unfold.
    destruct (decide (c ∈ remaining self)); [by right; left |].
    right. right. exists c. by destruct (decide (NoDup (_cards self ++ [c]))).
  - right. left. rewrite Deck_cards_unfold. by case_decide.
Qed.

Lemma call_cursor_ok (c : Call) (self : Deck) :
  cursor_ok self → cursor_ok (call c self).
Proof.
  unfold cursor_ok. intros Hok.
  destruct (call__cards c self) as [(tape & -> & _) | [Hsame | (card & Happ & Hidx)]].
  - simpl. lia.
  - rewrite Hsame. destruct c as [tape | | card |]; simpl in *.
    + lia.
    + rewrite Deck_draw_unfold. simpl. case_decide; simpl; lia.
    + destruct card as [| | | | | | c];
        try (by rewrite Deck_add_card_not_card).
      rewrite Deck_add_card_unfold in *.
      destruct (decide (c ∈ remaining self)); [done |].
      destruct (decide (NoDup (_cards self ++ [c]))); simpl in *; lia.
    + rewrite Deck_cards_unfold. by case_decide.
  - rewrite Happ, Hidx, length_app. simpl. lia.
Qed.

Lemma call_full_pack (c : Call) (self : Deck) :
  full_pack self → full_pack (call c self).
Proof.
  unfold full_pack. intros Hfull x.
  destruct (call__cards c self) as [(tape & _ & Hperm) | [-> | (card & -> & _)]].
  - by rewrite Hperm.
  - done.
  - apply elem_of_app. by left.
Qed.

Lemma call_keeps_duplicate (c : Call) (self : Deck) :
  ¬ NoDup (_cards self) → ¬ NoDup (_cards (call c self)).
Proof.
  intros Hdup.
  destruct (call__cards c self) as [(tape & _ & Hperm) | [-> | (card & -> & _)]].
  - by rewrite Hperm.
  - done.
  - rewrite NoDup_app. by intros [? _].
Qed.

Lemma calls_preserve (P : Deck → Prop) (cs : list Call) (self : Deck) :
  (∀ c d, P d → P (call c d)) → P self → P (calls cs self).
Proof.
  intros Hstep. revert self.
  induction cs as [| c cs IH]; intros self HP; [done |].
  apply (IH (call c self)), Hstep, HP.
Qed.

Lemma reachable_invariants (shuffle : bool) (tape : list nat) (cs : list Call) :
  cursor_ok (calls cs (Deck___init__ shuffle tape))
  ∧ full_pack (calls cs (Deck___init__ shuffle tape)).
Proof.
  destruct (Deck___init___cards shuffle tape) as (Hlen & _ & Hall & Hidx & _).
  split.
  - apply calls_preserve; [apply call_cursor_ok |].
    unfold cursor_ok. rewrite Hidx. lia.
  - apply calls_preserve; [apply call_full_pack | done].
Qed.

Lemma full_pack_NoDup_length (l : list Card) :
  (∀ c : Card, c ∈ l) → NoDup l ↔ length l = 52%nat.
Proof.
  intros Hfull.
  assert (Hsub : _cards unshuffled ⊆+ l).
  { apply NoDup_submseteq; [apply unshuffled_NoDup | done]. }
  assert (Hlen : length (_cards unshuffled) = 52%nat) by done.
  split.
  - intros Hnd.
    assert (Hsub' : l ⊆+ _cards unshuffled).
    { apply NoDup_submseteq; [done |]. intros c _. apply unshuffled_complete. }
    apply submseteq_length in Hsub, Hsub'. lia.
  - intros Hl. rewrite <- (submseteq_length_Permutation _ _ Hsub) by lia.
    apply unshuffled_NoDup.
Qed.

(** X7: on every deck reached from the constructor the cursor stays within
    the card list, so the length is never negative, and it is the number of
    cards an iteration yields. *)
Theorem reachable_len_iter (shuffle : bool) (tape : list nat) (cs : list Call) :
  (_draw_index (calls cs (Deck___init__ shuffle tape))
   ≤ length (_cards (calls cs (Deck___init__ shuffle tape))))%nat
  ∧ 0 ≤ Deck___len__ (calls cs (Deck___init__ shuffle tape))
  ∧ Deck___len__ (calls cs (Deck___init__ shuffle tape))
    = Z.of_nat (length (Deck___iter__ (calls cs (Deck___init__ shuffle tape)))).
Proof.
  destruct (reachable_invariants shuffle tape cs) as [Hok _].
  unfold cursor_ok in Hok. split; [done |].
  unfold Deck___len__, Deck___iter__. rewrite remaining_drop, length_drop. lia.
Qed.

(** X8: on every deck reached from the constructor [add_card] never
    returns: a value that is not a card raises [TypeError], and every card
    raises [DeckCheatingError], because each of the 52 cards is already
    somewhere in the list, drawn or not. *)
Theorem reachable_add_card_never_returns
    (shuffle : bool) (tape : list nat) (cs : list Call) (card : PyVal) :
  fst (Deck_add_card card (calls cs (Deck___init__ shuffle tape))) =
    match card with
    | PyCard _ => Raise DeckCheatingError
    | _ => Raise TypeError
    end.
Proof.
  destruct (reachable_invariants shuffle tape cs) as [_ Hfull].
  destruct card as [| | | | | | c]; try (by rewrite Deck_add_card_not_card).
  rewrite Deck_add_card_unfold.
  destruct (decide (c ∈ remaining _)); [done |].
  rewrite decide_False; [done |].
  rewrite NoDup_app. intros (_ & Hsep & _).
  apply (Hsep c (Hfull c)). by apply list_elem_of_singleton.
Qed.

(** X9: for a deck in any state, [add_card] returns exactly when its
    argument is a card, the list holds no duplicate and the card is nowhere
    in the list, before or after the cursor; the card is then the last of
    the list and the cursor is where it was. *)
Theorem Deck_add_card_returns (card : PyVal) (self self' : Deck) :
  Deck_add_card card self = (Return (), self') ↔
    ∃ c, card = PyCard c ∧ NoDup (_cards self) ∧ (c ∉ _cards self)
         ∧ self' = appended c self.
Proof.
  split.
  - destruct card as [| | | | | | c];
      try (by rewrite Deck_add_card_not_card).
    rewrite Deck_add_card_unfold.
    destruct (decide (c ∈ remaining self)); [done |].
    destruct (decide (NoDup (_cards self ++ [c]))) as [Hnd |]; [| done].
    intros [= <-]. exists c. apply NoDup_app in Hnd as (Hnd & Hsep & _).
    repeat split; try done.
    intros Hc. apply (Hsep c Hc). by apply list_elem_of_singleton.
  - intros (c & -> & Hnd & Hc & ->). rewrite Deck_add_card_unfold.
    rewrite decide_False.
    + rewrite decide_True; [done |]. apply NoDup_app. repeat split; [done | |].
      * intros x Hx ->%list_elem_of_singleton. done.
      * apply NoDup_singleton.
    + rewrite remaining_drop. intros Hin. apply Hc.
      apply (elem_of_sublist _ _ _ Hin), sublist_drop.
Qed.

Lemma Deck_add_card_returns_witness :
  Deck_add_card (PyCard two_of_clubs) (mkDeck [mkCard ACE SPADES] 0)
  = (Return (), mkDeck [mkCard ACE SPADES; two_of_clubs] 0).
Proof.
  apply (Deck_add_card_returns (PyCard two_of_clubs) (mkDeck [mkCard ACE SPADES] 0)).
  exists two_of_clubs. repeat split.
  - apply (bool_decide_unpack _). by vm_compute.
  - apply (bool_decide_eq_false_1 (_ ∈ _)). by vm_compute.
Defined.

(** X10: a duplicate in the list stays: once [_cards] holds a card twice,
    reading the [cards] property raises [DeckCheatingError] after any
    further sequence of calls, shuffles included. *)
Theorem duplicate_is_permanent (self : Deck) (cs : list Call) :
  ¬ NoDup (_cards self) →
  Deck_cards (calls cs self) = (Raise DeckCheatingError, calls cs self).
Proof.
  intros Hdup. rewrite Deck_cards_unfold. rewrite decide_False; [done |].
  by apply (calls_preserve (fun d => ¬ NoDup (_cards d)));
    [apply call_keeps_duplicate |].
Qed.

Lemma duplicate_is_permanent_witness :
  Deck_cards (calls [CallShuffle [3]%nat; CallDraw] after_readd)
  = (Raise DeckCheatingError, calls [CallShuffle [3]%nat; CallDraw] after_readd).
Proof.
  apply (duplicate_is_permanent after_readd [CallShuffle [3]%nat; CallDraw]).
  apply (bool_decide_eq_false_1 (NoDup _)). by vm_compute.
Defined.

(** X11: on a deck reached from the constructor the [cards] property
    returns the remaining cards exactly while the list still has its 52
    cards; after any call has appended a 53rd it raises
    [DeckCheatingError]. *)
Theorem reachable_cards_outcome (shuffle : bool) (tape : list nat) (cs : list Call) :
  fst (Deck_cards (calls cs (Deck___init__ shuffle tape))) =
    if decide (length (_cards (calls cs (Deck___init__ shuffle tape))) = 52%nat)
    then Return (remaining (calls cs (Deck___init__ shuffle tape)))
    else Raise DeckCheatingError.
Proof.
  destruct (reachable_invariants shuffle tape cs) as [_ Hfull].
  rewrite Deck_cards_unfold.
  pose proof (full_pack_NoDup_length _ Hfull) as Hiff.
  destruct (decide (NoDup _)) as [Hnd | Hdup].
  - by rewrite decide_True by by apply Hiff.
  - rewrite decide_False; [done |]. intros Hlen. by apply Hdup, Hiff.
Qed.

Lemma draw_many_exhausted (n : nat) (self : Deck) :
  (length (_cards self) ≤ _draw_index self)%nat →
  draw_many n self = (replicate n None, self).
Proof.
  intros Hend. induction n as [| n IH]; [done |].
  simpl. by rewrite Deck_draw_None, IH.
Qed.

Lemma draw_many_add (n m : nat) (self : Deck) :
  draw_many (n + m) self =
    (fst (draw_many n self) ++ fst (draw_many m (snd (draw_many n self))),
     snd (draw_many m (snd (draw_many n self)))).
Proof.
  revert self. induction n as [| n IH]; intros self; simpl.
  - by destruct (draw_many m self).
  - destruct (Deck_draw self) as [r self1]. rewrite IH.
    by destruct (draw_many n self1).
Qed.

Lemma draw_many_any (n : nat) (self : Deck) :
  cursor_ok self →
  draw_many n self =
    ((Some <$> take n (remaining self))
       ++ replicate (n - length (remaining self)) None,
     {| _cards := _cards self;
        _draw_index := (_draw_index self + n) `min` length (_cards self) |}).
Proof.
  unfold cursor_ok. intros Hok. rewrite remaining_drop, length_drop.
  destruct (decide (_draw_index self + n ≤ length (_cards self))%nat) as [Hle | Hgt].
  - rewrite draw_many_spec by done.
    replace (n - (length (_cards self) - _draw_index self))%nat with 0%nat by lia.
    simpl. rewrite app_nil_r. do 2 f_equal. lia.
  - set (k := (length (_cards self) - _draw_index self)%nat).
    replace n with (k + (n - k))%nat at 1 by lia.
    rewrite draw_many_add, draw_many_spec by lia. simpl.
    rewrite draw_many_exhausted by (simpl; lia). simpl.
    rewrite !take_ge by (rewrite length_drop; lia).
    do 2 f_equal. lia.
Qed.

Lemma Deck___getitem___nat (self : Deck) (i : nat) :
  Deck___getitem__ self (PyInt (Z.of_nat i)) =
    match remaining self !! i with
    | Some card => Return card
    | None => Raise IndexError
    end.
Proof.
  unfold Deck___getitem__, Deck___len__. simpl.
  rewrite remaining_drop, lookup_drop.
  destruct (Z.leb_spec 0 (Z.of_nat i)) as [_ |]; [| lia].
  destruct (Z.ltb_spec (Z.of_nat i)
              (Z.of_nat (length (_cards self)) - Z.of_nat (_draw_index self)))
    as [Hlt | Hge]; simpl.
  - destruct (lookup_lt_is_Some_2 (_cards self) (_draw_index self + i))
      as [card Hcard]; [lia |].
    rewrite Hcard.
    replace (Z.of_nat (_draw_index self) + Z.of_nat i)
      with (Z.of_nat (_draw_index self + i)) by lia.
    by apply list_getitem_nonneg.
  - by rewrite lookup_ge_None_2 by lia.
Qed.

(** X12: a shuffle is a full reset: whatever was drawn before, the cursor
    is back at 0 and the remaining cards are a rearrangement of the whole
    list, drawn cards included; so a new deck has length 52 again after any
    number of draws followed by a shuffle. *)
Theorem Deck_shuffle_full_reset
    (self : Deck) (tape : list nat) (shuffle : bool) (tape0 : list nat) (N : nat) :
  _draw_index (Deck_shuffle tape self) = 0%nat
  ∧ remaining (Deck_shuffle tape self) ≡ₚ _cards self
  ∧ Deck___len__ (Deck_shuffle tape self) = Z.of_nat (length (_cards self))
  ∧ Deck___len__
      (Deck_shuffle tape (snd (draw_many N (Deck___init__ shuffle tape0)))) = 52.
Proof.
  assert (Hlen : ∀ d, Deck___len__ (Deck_shuffle tape d) = Z.of_nat (length (_cards d))).
  { intros d. unfold Deck___len__, Deck_shuffle. simpl.
    rewrite random_shuffle_Permutation. lia. }
  split; [done | split; [| split; [apply Hlen |]]].
  - rewrite remaining_drop. simpl. apply random_shuffle_Permutation.
  - destruct (Deck___init___cards shuffle tape0) as (Hlen0 & _ & _ & Hidx & _).
    rewrite Hlen, draw_many_any by (unfold cursor_ok; lia).
    cbn [snd _cards]. by rewrite Hlen0.
Qed.

(** X13: drawing [n] times from a deck whose cursor is within its list
    never raises: the draws return the remaining cards in order, then [None]
    for every draw past the end, and the cursor stops at the end of the
    list. *)
Theorem draw_many_until_empty (n : nat) (self : Deck) :
  (_draw_index self ≤ length (_cards self))%nat →
  draw_many n self =
    ((Some <$> take n (remaining self))
       ++ replicate (n - length (remaining self)) None,
     {| _cards := _cards self;
        _draw_index := (_draw_index self + n) `min` length (_cards self) |}).
Proof. apply draw_many_any. Qed.

Lemma draw_many_until_empty_witness :
  draw_many 55 after_one_draw =
    ((Some <$> take 55 (remaining after_one_draw))
       ++ replicate (55 - length (remaining after_one_draw)) None,
     {| _cards := _cards after_one_draw;
        _draw_index := (_draw_index after_one_draw + 55)
                         `min` length (_cards after_one_draw) |}).
Proof. apply (draw_many_until_empty 55 after_one_draw). vm_compute. lia. Defined.

(** X14: index access looks ahead of the draws: on a deck whose cursor is
    within its list, [deck[i]] for [i ≥ 0] is the card the [(i+1)]-th draw
    from now returns, and it raises [IndexError] exactly when that draw
    returns [None]. *)
Theorem getitem_is_future_draw (self : Deck) (i : nat) :
  (_draw_index self ≤ length (_cards self))%nat →
  fst (draw_many (S i) self) !! i =
    Some match Deck___getitem__ self (PyInt (Z.of_nat i)) with
         | Return card => Some card
         | Raise _ => None
         end.
Proof.
  intros Hok. rewrite draw_many_any by done.
  rewrite Deck___getitem___nat. cbn [fst].
  destruct (remaining self !! i) as [card |] eqn:Hi.
  - rewrite lookup_app_l.
    + by rewrite list_lookup_fmap, lookup_take_lt, Hi by lia.
    + rewrite length_fmap, length_take. apply lookup_lt_Some in Hi. lia.
  - apply lookup_ge_None_1 in Hi.
    rewrite take_ge by lia. rewrite lookup_app_r by (rewrite length_fmap; lia).
    rewrite length_fmap. apply lookup_replicate_2. lia.
Qed.

Lemma getitem_is_future_draw_witness :
  fst (draw_many 4 after_one_draw) !! 3%nat =
    Some match Deck___getitem__ after_one_draw (PyInt (Z.of_nat 3)) with
         | Return card => Some card
         | Raise _ => None
         end.
Proof. apply (getitem_is_future_draw after_one_draw 3). vm_compute. lia. Defined.

(** ** Greatest and least card *)

Lemma builtin_max_spec (first : Card) (rest : list Card) :
  builtin_max first rest ∈ first :: rest
  ∧ ∀ c, c ∈ first :: rest → Card_ltb (builtin_max first rest) c = false.
Proof.
  revert first. induction rest as [| x rest IH]; intros first.
  - split; [apply list_elem_of_here |].
    intros c ->%list_elem_of_singleton. apply Card_ltb_irrefl.
  - unfold builtin_max. simpl. fold (builtin_max (if Card_gtb x first then x else first) rest).
    destruct (IH (if Card_gtb x first then x else first)) as [Hin Hub].
    rewrite Card_gtb_ltb in *.
    set (m := builtin_max (if Card_ltb first x then x else first) rest) in *.
    assert (Hfirst : Card_ltb m (if Card_ltb first x then x else first) = false)
      by apply Hub, list_elem_of_here.
    destruct (Card_ltb first x) eqn:Hfx.
    + split.
      * apply elem_of_cons in Hin as [-> | Hin];
          [apply list_elem_of_further, list_elem_of_here
          | by do 2 apply list_elem_of_further].
      * intros c [-> | Hc]%elem_of_cons; [| by apply Hub].
        apply not_true_iff_false. intros Hmf.
        pose proof (Card_ltb_trans _ _ _ Hmf Hfx). congruence.
    + split.
      * apply elem_of_cons in Hin as [-> | Hin];
          [apply list_elem_of_here | by do 2 apply list_elem_of_further].
      * intros c [-> | [-> | Hc]%elem_of_cons]%elem_of_cons.
        -- done.
        -- by apply (Card_le_trans x first m).
        -- by apply Hub, list_elem_of_further.
Qed.

Lemma builtin_min_spec (first : Card) (rest : list Card) :
  builtin_min first rest ∈ first :: rest
  ∧ ∀ c, c ∈ first :: rest → Card_ltb c (builtin_min first rest) = false.
Proof.
  revert first. induction rest as [| x rest IH]; intros first.
  - split; [apply list_elem_of_here |].
    intros c ->%list_elem_of_singleton. apply Card_ltb_irrefl.
  - unfold builtin_min. simpl. fold (builtin_min (if Card_ltb x first then x else first) rest).
    destruct (IH (if Card_ltb x first then x else first)) as [Hin Hlb].
    set (m := builtin_min (if Card_ltb x first then x else first) rest) in *.
    assert (Hfirst : Card_ltb (if Card_ltb x first then x else first) m = false)
      by apply Hlb, list_elem_of_here.
    destruct (Card_ltb x first) eqn:Hxf.
    + split.
      * apply elem_of_cons in Hin as [-> | Hin];
          [apply list_elem_of_further, list_elem_of_here
          | by do 2 apply list_elem_of_further].
      * intros c [-> | Hc]%elem_of_cons; [| by apply Hlb].
        apply not_true_iff_false. intros Hfm.
        pose proof (Card_ltb_trans _ _ _ Hxf Hfm). congruence.
    + split.
      * apply elem_of_cons in Hin as [-> | Hin];
          [apply list_elem_of_here | by do 2 apply list_elem_of_further].
      * intros c [-> | [-> | Hc]%elem_of_cons]%elem_of_cons.
        -- done.
        -- by apply (Card_le_trans m first x).
        -- by apply Hlb, list_elem_of_further.
Qed.

Lemma greatest_unique (l : list Card) (m m' : Card) :
  m ∈ l → (∀ c, c ∈ l → Card_ltb m c = false) →
  m' ∈ l → (∀ c, c ∈ l → Card_ltb m' c = false) → m = m'.
Proof. intros Hm Hub Hm' Hub'. apply Card_ltb_total; auto. Qed.

Lemma least_unique (l : list Card) (m m' : Card) :
  m ∈ l → (∀ c, c ∈ l → Card_ltb c m = false) →
  m' ∈ l → (∀ c, c ∈ l → Card_ltb c m' = false) → m = m'.
Proof. intros Hm Hlb Hm' Hlb'. apply Card_ltb_total; auto. Qed.

(** X15: [Deck.max] raises [ValueError] exactly when no card remains;
    otherwise it returns a remaining card that no remaining card is
    greater than. *)
Theorem Deck_max_greatest (self : Deck) :
  (Deck_max self = Raise ValueError ↔ remaining self = [])
  ∧ (remaining self ≠ [] →
     ∃ m, Deck_max self = Return m ∧ m ∈ remaining self
          ∧ ∀ c, c ∈ remaining self → Card___gt__ c (PyCard m) = Return false).
Proof.
  unfold Deck_max. destruct (remaining self) as [| first rest]; [done |].
  split; [done |]. intros _.
  destruct (builtin_max_spec first rest) as [Hin Hub].
  exists (builtin_max first rest). repeat split; [done |].
  intros c Hc. simpl. rewrite Card_gtb_ltb. f_equal. by apply Hub.
Qed.

Lemma Deck_max_greatest_witness :
  ∃ m, Deck_max after_one_draw = Return m ∧ m ∈ remaining after_one_draw
       ∧ ∀ c, c ∈ remaining after_one_draw → Card___gt__ c (PyCard m) = Return false.
Proof. apply (Deck_max_greatest after_one_draw). by vm_compute. Defined.

(** X16: [Deck.min] raises [ValueError] exactly when no card remains;
    otherwise it returns a remaining card that no remaining card is
    smaller than. *)
Theorem Deck_min_least (self : Deck) :
  (Deck_min self = Raise ValueError ↔ remaining self = [])
  ∧ (remaining self ≠ [] →
     ∃ m, Deck_min self = Return m ∧ m ∈ remaining self
          ∧ ∀ c, c ∈ remaining self → Card___lt__ c (PyCard m) = Return false).
Proof.
  unfold Deck_min. destruct (remaining self) as [| first rest]; [done |].
  split; [done |]. intros _.
  destruct (builtin_min_spec first rest) as [Hin Hlb].
  exists (builtin_min first rest). repeat split; [done |].
  intros c Hc. simpl. f_equal. by apply Hlb.
Qed.

Lemma Deck_min_least_witness :
  ∃ m, Deck_min after_one_draw = Return m ∧ m ∈ remaining after_one_draw
       ∧ ∀ c, c ∈ remaining after_one_draw → Card___lt__ c (PyCard m) = Return false.
Proof. apply (Deck_min_least after_one_draw). by vm_compute. Defined.

Lemma Deck_max_Permutation (self self' : Deck) :
  remaining self ≡ₚ remaining self' → Deck_max self = Deck_max self'.
Proof.
  intros Hperm. unfold Deck_max.
  destruct (remaining self) as [| f r] eqn:Hl, (remaining self') as [| f' r'] eqn:Hl'.
  - done.
  - by apply Permutation_nil_l in Hperm.
  - by apply Permutation_nil_r in Hperm.
  - destruct (builtin_max_spec f r) as [Hin Hub].
    destruct (builtin_max_spec f' r') as [Hin' Hub'].
    f_equal. apply (greatest_unique (f :: r)); try done.
    + by rewrite Hperm.
    + intros c Hc. apply Hub'. by rewrite <- Hperm.
Qed.

Lemma Deck_min_Permutation (self self' : Deck) :
  remaining self ≡ₚ remaining self' → Deck_min self = Deck_min self'.
Proof.
  intros Hperm. unfold Deck_min.
  destruct (remaining self) as [| f r] eqn:Hl, (remaining self') as [| f' r'] eqn:Hl'.
  - done.
  - by apply Permutation_nil_l in Hperm.
  - by apply Permutation_nil_r in Hperm.
  - destruct (builtin_min_spec f r) as [Hin Hlb].
    destruct (builtin_min_spec f' r') as [Hin' Hlb'].
    f_equal. apply (least_unique (f :: r)); try done.
    + by rewrite Hperm.
    + intros c Hc. apply Hlb'. by rewrite <- Hperm.
Qed.

(** X17: the order of the cards does not matter to [max] and [min]: two
    decks whose remaining cards are rearrangements of each other give the
    same answers; in particular a shuffle from cursor 0 changes neither,
    and a new deck, shuffled or not, has the ace of spades as its greatest
    and the two of clubs as its least card. *)
Theorem Deck_max_min_order_independent
    (self self' : Deck) (shuffle : bool) (tape : list nat) :
  (remaining self ≡ₚ remaining self' →
   Deck_max self = Deck_max self' ∧ Deck_min self = Deck_min self')
  ∧ Deck_max (Deck___init__ shuffle tape) = Return (mkCard ACE SPADES)
  ∧ Deck_min (Deck___init__ shuffle tape) = Return (mkCard TWO CLUBS).
Proof.
  split.
  - intros Hperm. split;
      [by apply Deck_max_Permutation | by apply Deck_min_Permutation].
  - assert (Hperm : remaining (Deck___init__ shuffle tape) ≡ₚ remaining unshuffled).
    { rewrite !remaining_drop.
      destruct (Deck___init___cards shuffle tape) as (_ & _ & _ & -> & _).
      apply Deck___init___Permutation. }
    rewrite (Deck_max_Permutation _ _ Hperm), (Deck_min_Permutation _ _ Hperm).
    by vm_compute.
Qed.

Lemma Deck_max_min_order_independent_witness :
  Deck_max (Deck_shuffle [4; 2]%nat unshuffled) = Deck_max unshuffled
  ∧ Deck_min (Deck_shuffle [4; 2]%nat unshuffled) = Deck_min unshuffled.
Proof.
  apply (proj1 (Deck_max_min_order_independent (Deck_shuffle [4; 2]%nat unshuffled)
                  unshuffled false [])).
  rewrite !remaining_drop. apply random_shuffle_Permutation.
Defined.

Lemma as_cards_Some (args : list PyVal) (cs : list Card) :
  as_cards args = Some cs ↔ args = PyCard <$> cs.
Proof.
  revert cs. induction args as [| v args IH]; intros cs; simpl.
  - split; [by intros [= <-] | by destruct cs].
  - destruct v as [| | | | | | c];
      try (split; [done | by destruct cs]).
    destruct (as_cards args) as [cs' |] eqn:Hargs.
    + split.
      * intros [= <-]. simpl. f_equal. by apply IH.
      * destruct cs as [| c' cs'']; [done |]. intros [= -> Hrest].
        apply IH in Hrest. congruence.
    + split; [done |]. destruct cs as [| c' cs'']; [done |].
      intros [= -> Hrest]. apply IH in Hrest. congruence.
Qed.

Lemma as_cards_None (args : list PyVal) :
  as_cards args = None ↔ ∃ v, v ∈ args ∧ ∀ c, v ≠ PyCard c.
Proof.
  induction args as [| v args IH]; simpl.
  - split; [done | by intros (v & Hv%not_elem_of_nil & _)].
  - destruct v as [| | | | | | c];
      try (split; [intros _; eexists; split; [apply list_elem_of_here | done] | done]).
    destruct (as_cards args) as [cs |].
    + split; [done |]. intros (v & [-> | Hv]%elem_of_cons & Hnot).
      * by destruct (Hnot c).
      * destruct IH as [_ IH]. discriminate IH. eauto.
    + split; [| done]. intros _.
      destruct IH as [(v & Hv & Hnot) _]; [done |].
      exists v. split; [by apply list_elem_of_further | done].
Qed.

(** X18: [max_card] raises [ValueError] when called without arguments and
    [TypeError] when any argument, wherever it stands, is not a card;
    otherwise it returns one of its arguments that none of them is greater
    than. *)
Theorem max_card_outcome (cards : list PyVal) :
  (cards = [] → max_card cards = Raise ValueError)
  ∧ (cards ≠ [] → (∃ v, v ∈ cards ∧ ∀ c, v ≠ PyCard c) →
     max_card cards = Raise TypeError)
  ∧ (cards ≠ [] → (∀ v, v ∈ cards → ∃ c, v = PyCard c) →
     ∃ m, max_card cards = Return m ∧ PyCard m ∈ cards
          ∧ ∀ c, PyCard c ∈ cards → Card___gt__ c (PyCard m) = Return false).
Proof.
  split; [by intros -> | split].
  - intros Hne Hbad%as_cards_None. unfold max_card. rewrite Hbad.
    by destruct cards.
  - intros Hne Hall. unfold max_card.
    destruct (as_cards cards) as [cs |] eqn:Hcs.
    + apply as_cards_Some in Hcs as ->.
      destruct cs as [| first rest]; [done |].
      destruct (builtin_max_spec first rest) as [Hin Hub].
      exists (builtin_max first rest). simpl. repeat split.
      * apply (list_elem_of_fmap_2 PyCard) in Hin. done.
      * intros c Hc. rewrite Card_gtb_ltb. f_equal. apply Hub.
        change (PyCard c ∈ PyCard <$> (first :: rest)) in Hc.
        apply list_elem_of_fmap in Hc as (c' & [= ->] & Hc'). done.
    + apply as_cards_None in Hcs as (v & Hv & Hnot).
      destruct (Hall v Hv) as [c ->]. by destruct (Hnot c).
Qed.

Lemma max_card_outcome_witness :
  max_card [PyCard two_of_clubs; PyStr "not a card"] = Raise TypeError
  ∧ ∃ m, max_card [PyCard (mkCard ACE HEARTS); PyCard (mkCard ACE CLUBS)] = Return m
         ∧ PyCard m ∈ [PyCard (mkCard ACE HEARTS); PyCard (mkCard ACE CLUBS)]
         ∧ ∀ c, PyCard c ∈ [PyCard (mkCard ACE HEARTS); PyCard (mkCard ACE CLUBS)] →
                Card___gt__ c (PyCard m) = Return false.
Proof.
  split.
  - apply (max_card_outcome [PyCard two_of_clubs; PyStr "not a card"]); [done |].
    exists (PyStr "not a card"). split; [| done].
    apply list_elem_of_further, list_elem_of_here.
  - apply (max_card_outcome [PyCard (mkCard ACE HEARTS); PyCard (mkCard ACE CLUBS)]);
      [done |].
    intros v [-> | ->%list_elem_of_singleton]%elem_of_cons; eauto.
Defined.

(** ** Statistics in general *)

Lemma sorted_insert_Permutation (x : Card) (l : list Card) :
  sorted_insert x l ≡ₚ x :: l.
Proof.
  induction l as [| y l IH]; simpl; [done |].
  destruct (Card_ltb x y); [done |]. by rewrite IH, Permutation_swap.
Qed.

Lemma sorted_insert_StronglySorted (x : Card) (l : list Card) :
  StronglySorted Card_le l → StronglySorted Card_le (sorted_insert x l).
Proof.
  induction 1 as [| y l Hsorted IH Hall]; simpl.
  - repeat constructor.
  - destruct (Card_ltb x y) eqn:Hxy.
    + assert (Hle : Card_le x y).
      { unfold Card_le. apply not_true_iff_false. intros Hyx.
        pose proof (Card_ltb_trans _ _ _ Hxy Hyx) as Hxx.
        by rewrite Card_ltb_irrefl in Hxx. }
      constructor; [by constructor |].
      constructor; [done |].
      eapply Forall_impl; [exact Hall |]. intros z Hz.
      by apply (Card_le_trans x y z).
    + constructor; [done |].
      rewrite sorted_insert_Permutation. by constructor.
Qed.

Lemma sorted_foldl (acc l : list Card) :
  StronglySorted Card_le acc →
  foldl (fun acc x => sorted_insert x acc) acc l ≡ₚ acc ++ l
  ∧ StronglySorted Card_le (foldl (fun acc x => sorted_insert x acc) acc l).
Proof.
  revert acc. induction l as [| x l IH]; intros acc Hacc; simpl.
  - by rewrite app_nil_r.
  - destruct (IH (sorted_insert x acc)) as [Hperm Hsorted];
      [by apply sorted_insert_StronglySorted |].
    split; [| done].
    by rewrite Hperm, sorted_insert_Permutation, <- Permutation_middle.
Qed.

Lemma sorted_spec (cards : list Card) :
  sorted cards ≡ₚ cards ∧ StronglySorted Card_le (sorted cards).
Proof. apply (sorted_foldl [] cards). constructor. Qed.

Lemma cards_stats_loop_step (cards sorted_cards : list Card) (key : string)
    (value : PyVal) (kwargs : list (string * PyVal))
    (results : gmap string StatValue) (out : list string) :
  cards_stats_loop cards sorted_cards ((key, value) :: kwargs) results out =
    match as_int value with
    | None => (Raise ValueError, out)
    | Some v =>
        if v <=? 0 then (Raise ValueError, out)
        else match stat_entry key v cards sorted_cards with
             | Some entry =>
                 cards_stats_loop cards sorted_cards kwargs (<[key := entry]> results) out
             | None =>
                 cards_stats_loop cards sorted_cards kwargs results (out ++ [key])
             end
    end.
Proof.
  simpl. destruct (as_int value) as [v |]; [| done].
  destruct (v <=? 0); [done |]. unfold stat_entry, clamp_count.
  destruct (String.eqb_spec key "max") as [-> | _]; [done |].
  destruct (String.eqb_spec key "min") as [-> | _]; [done |].
  by destruct (String.eqb_spec key "len") as [-> | _].
Qed.

Lemma stat_entry_known (key : string) (v : Z) (cards sorted_cards : list Card) :
  is_Some (stat_entry key v cards sorted_cards) ↔ known_key key = true.
Proof.
  unfold stat_entry, known_key.
  destruct (String.eqb key "max"); [by split; eauto |].
  destruct (String.eqb key "min"); [by split; eauto |].
  destruct (String.eqb key "len"); [by split; eauto |].
  split; [by intros [? ?] | done].
Qed.

Lemma valid_count_as_int (value : PyVal) :
  valid_count value = true ↔ ∃ v, as_int value = Some v ∧ 0 < v.
Proof.
  unfold valid_count. destruct (as_int value) as [v |].
  - rewrite negb_true_iff, Z.leb_gt. split; [eauto | by intros (? & [= <-] & ?)].
  - split; [done | by intros (? & ? & ?)].
Qed.

Lemma cards_stats_loop_outcome (cards sorted_cards : list Card)
    (kwargs : list (string * PyVal)) (results : gmap string StatValue)
    (out : list string) :
  if forallb (fun kv => valid_count kv.2) kwargs
  then ∃ r, cards_stats_loop cards sorted_cards kwargs results out
            = (Return r,
               out ++ filter (fun key => known_key key = false) kwargs.*1)
  else fst (cards_stats_loop cards sorted_cards kwargs results out)
       = Raise ValueError.
Proof.
  revert results out. induction kwargs as [| [key value] kwargs IH];
    intros results out.
  - simpl. exists results. by rewrite app_nil_r.
  - rewrite cards_stats_loop_step. cbn [forallb snd].
    destruct (valid_count value) eqn:Hvalid; simpl.
    + apply valid_count_as_int in Hvalid as (v & -> & Hv).
      destruct (Z.leb_spec v 0) as [| _]; [lia |].
      rewrite filter_cons.
      destruct (stat_entry key v cards sorted_cards) as [entry |] eqn:Hentry.
      * assert (known_key key = true) as Hknown
          by (apply (stat_entry_known key v cards sorted_cards); eauto).
        rewrite decide_False by (rewrite Hknown; done). apply IH.
      * assert (known_key key = false) as Hknown.
        { apply not_true_iff_false. intros Hk.
          apply (stat_entry_known key v cards sorted_cards) in Hk.
          rewrite Hentry in Hk. by destruct Hk. }
        rewrite decide_True by done.
        specialize (IH results (out ++ [key])).
        destruct (forallb _ kwargs); [| done].
        destruct IH as [r ->]. exists r. by rewrite <- app_assoc.
    + unfold valid_count in Hvalid. destruct (as_int value) as [v |]; [| done].
      apply negb_false_iff in Hvalid. by rewrite Hvalid.
Qed.

(** X19: [cards_stats] raises [ValueError] when it is given no card and
    when any option, recognised or not, carries a count that is not an
    integer above zero; otherwise it returns, and the keys it warns about
    are the unrecognised ones, in call order. *)
Theorem cards_stats_outcome (cards : list Card) (kwargs : list (string * PyVal)) :
  if bool_decide (cards ≠ []) && forallb (fun kv => valid_count kv.2) kwargs
  then ∃ results,
         cards_stats cards kwargs
         = (Return results, filter (fun key => known_key key = false) kwargs.*1)
  else fst (cards_stats cards kwargs) = Raise ValueError.
Proof.
  destruct cards as [| c cards]; [done |].
  rewrite bool_decide_eq_true_2 by done. simpl.
  apply (cards_stats_loop_outcome (c :: cards) (sorted (c :: cards)) kwargs ∅ []).
Qed.

Lemma cards_stats_loop_lookup_other (cards sorted_cards : list Card)
    (kwargs : list (string * PyVal)) (results r : gmap string StatValue)
    (out : list string) (K : string) :
  K ∉ kwargs.*1 ∨ known_key K = false →
  fst (cards_stats_loop cards sorted_cards kwargs results out) = Return r →
  r !! K = results !! K.
Proof.
  revert results out. induction kwargs as [| [key value] kwargs IH];
    intros results out HK; [by intros [= ->] |].
  rewrite cards_stats_loop_step.
  destruct (as_int value) as [v |]; [| done].
  destruct (v <=? 0); [done |].
  assert (HK' : K ∉ kwargs.*1 ∨ known_key K = false).
  { destruct HK as [HK | HK]; [left | by right].
    intros Hin. apply HK. simpl. by apply list_elem_of_further. }
  destruct (stat_entry key v cards sorted_cards) as [entry |] eqn:Hentry;
    [| by apply IH].
  intros Hr. rewrite (IH _ _ HK' Hr). apply lookup_insert_ne.
  intros ->. destruct HK as [HK | HK].
  - apply HK. simpl. apply list_elem_of_here.
  - assert (known_key K = true)
      by (apply (stat_entry_known K v cards sorted_cards); eauto).
    congruence.
Qed.

Lemma cards_stats_loop_lookup (cards sorted_cards : list Card)
    (kwargs : list (string * PyVal)) (results r : gmap string StatValue)
    (out : list string) (K : string) (value : PyVal) (v : Z) (entry : StatValue) :
  NoDup kwargs.*1 → (K, value) ∈ kwargs → as_int value = Some v →
  stat_entry K v cards sorted_cards = Some entry →
  fst (cards_stats_loop cards sorted_cards kwargs results out) = Return r →
  r !! K = Some entry.
Proof.
  revert results out. induction kwargs as [| [key value'] kwargs IH];
    intros results out Hnd Hin Hv Hentry; [by apply not_elem_of_nil in Hin |].
  simpl in Hnd. apply NoDup_cons in Hnd as [Hkey Hnd].
  rewrite cards_stats_loop_step.
  apply elem_of_cons in Hin as [[= <- <-] | Hin].
  - rewrite Hv. destruct (v <=? 0); [done |]. rewrite Hentry. intros Hr.
    rewrite (cards_stats_loop_lookup_other _ _ _ _ _ _ K (or_introl Hkey) Hr).
    apply lookup_insert_eq.
  - destruct (as_int value') as [v' |]; [| done].
    destruct (v' <=? 0); [done |].
    destruct (stat_entry key v' cards sorted_cards); by apply IH.
Qed.

Lemma slice_to_clamp (sorted_cards : list Card) (n : Z) :
  0 < n →
  slice_to sorted_cards (clamp_count n sorted_cards) = take (Z.to_nat n) sorted_cards.
Proof.
  intros Hn. unfold slice_to, slice_bound, clamp_count. rewrite Z.gtb_ltb.
  destruct (Z.ltb_spec (Z.of_nat (length sorted_cards)) n) as [Hlt | Hge].
  - destruct (Z.ltb_spec (Z.of_nat (length sorted_cards)) 0); [lia |].
    rewrite Z.min_id, Nat2Z.id, !take_ge by lia. done.
  - destruct (Z.ltb_spec n 0); [lia |]. f_equal. lia.
Qed.

Lemma slice_from_clamp (sorted_cards : list Card) (n : Z) :
  0 < n →
  slice_from sorted_cards (- clamp_count n sorted_cards)
  = drop (length sorted_cards - Z.to_nat n) sorted_cards.
Proof.
  intros Hn. unfold slice_from, slice_bound, clamp_count. rewrite Z.gtb_ltb.
  destruct (Z.ltb_spec (Z.of_nat (length sorted_cards)) n) as [Hlt | Hge].
  - destruct (Z.ltb_spec (- Z.of_nat (length sorted_cards)) 0) as [| Hzero].
    + f_equal. lia.
    + assert (length sorted_cards = 0%nat) as Hnil by lia.
      rewrite Hnil. simpl. f_equal.
  - destruct (Z.ltb_spec (- n) 0); [| lia]. f_equal. lia.
Qed.

(** X20: when [cards_stats] returns, its result has an entry for each of
    the keys [len], [min] and [max] that was passed and for nothing else:
    [len] is the number of cards whatever count came with it, [min] with
    count [n] is the first [n] cards and [max] with count [n] the last [n]
    cards of the cards in ascending order, all of them when [n] exceeds
    their number. *)
Theorem cards_stats_entries (cards : list Card) (kwargs : list (string * PyVal))
    (results : gmap string StatValue) :
  NoDup kwargs.*1 →
  fst (cards_stats cards kwargs) = Return results →
  sorted cards ≡ₚ cards
  ∧ StronglySorted Card_le (sorted cards)
  ∧ (∀ key, is_Some (results !! key) → key ∈ kwargs.*1 ∧ known_key key = true)
  ∧ (∀ value, ("len", value) ∈ kwargs →
       results !! "len" = Some (StatLen (Z.of_nat (length cards))))
  ∧ (∀ value n, ("min", value) ∈ kwargs → as_int value = Some n →
       results !! "min" = Some (StatCards (take (Z.to_nat n) (sorted cards))))
  ∧ (∀ value n, ("max", value) ∈ kwargs → as_int value = Some n →
       results !! "max"
       = Some (StatCards (drop (length cards - Z.to_nat n) (sorted cards)))).
Proof.
  intros Hnd Hres. destruct (sorted_spec cards) as [Hperm Hsorted].
  split; [done | split; [done |]].
  destruct cards as [| c cards]; [done |]. unfold cards_stats in Hres.
  set (cs := c :: cards) in *.
  assert (Hvalid : ∀ value, value ∈ kwargs.*2 → ∃ v, as_int value = Some v ∧ 0 < v).
  { intros value Hin.
    pose proof (cards_stats_loop_outcome cs (sorted cs) kwargs ∅ []) as Hout.
    destruct (forallb _ kwargs) eqn:Hall; [| congruence].
    rewrite forallb_forall in Hall.
    apply list_elem_of_fmap in Hin as ([key value'] & -> & Hin).
    apply valid_count_as_int, (Hall (key, value')). by apply list_elem_of_In. }
  assert (Hpos : ∀ key value n, (key, value) ∈ kwargs → as_int value = Some n → 0 < n).
  { intros key value n Hin Hn. destruct (Hvalid value) as (v & Hv & Hpos).
    - apply list_elem_of_fmap. by exists (key, value).
    - congruence. }
  split; [| split; [| split]].
  - intros key Hsome.
    destruct (decide (key ∈ kwargs.*1)) as [Hin | Hout].
    + split; [done |]. apply not_false_iff_true. intros Hunknown.
      rewrite (cards_stats_loop_lookup_other _ _ _ _ _ _ key (or_intror Hunknown) Hres)
        in Hsome.
      by destruct Hsome.
    + rewrite (cards_stats_loop_lookup_other _ _ _ _ _ _ key (or_introl Hout) Hres)
        in Hsome.
      by destruct Hsome.
  - intros value Hin.
    destruct (Hvalid value) as (v & Hv & _);
      [apply list_elem_of_fmap; by exists ("len", value) |].
    by apply (cards_stats_loop_lookup cs (sorted cs) kwargs ∅ results [] "len" value v).
  - intros value n Hin Hn.
    apply (cards_stats_loop_lookup cs (sorted cs) kwargs ∅ results [] "min" value n);
      try done.
    unfold stat_entry. simpl. rewrite slice_to_clamp by eauto. done.
  - intros value n Hin Hn.
    apply (cards_stats_loop_lookup cs (sorted cs) kwargs ∅ results [] "max" value n);
      try done.
    unfold stat_entry. simpl. rewrite slice_from_clamp by eauto.
    assert (length (sorted cs) = length cs) as -> by by rewrite Hperm.
    done.
Qed.

Lemma cards_stats_entries_witness :
  ∃ results,
    fst (cards_stats six_cards six_options) = Return results
    ∧ results !! "min" = Some (StatCards (take (Z.to_nat 1) (sorted six_cards)))
    ∧ results !! "max"
      = Some (StatCards (drop (length six_cards - Z.to_nat 2) (sorted six_cards))).
Proof.
  assert (Hnd : NoDup six_options.*1)
    by (apply (bool_decide_unpack _); by vm_compute).
  destruct (cards_stats (six_cards) six_options) as [[results | e] out] eqn:Hstats;
    [| by vm_compute in Hstats].
  exists results. split; [done |].
  destruct (cards_stats_entries six_cards six_options results Hnd)
    as (_ & _ & _ & _ & Hmin & Hmax); [by rewrite Hstats |].
  split.
  - apply (Hmin (PyInt 1)); [| done].
    apply list_elem_of_further, list_elem_of_here.
  - apply (Hmax (PyInt 2)); [| done]. apply list_elem_of_here.
Defined.

(** ** The guard in general *)

(** X21: whatever method it wraps, the guard leaves the deck exactly as
    the method left it, lets an exception of the method through untouched,
    and turns a normal return into [DeckCheatingError] exactly when the
    deck's whole list, drawn cards included, then holds some card twice. *)
Theorem fair_deck_outcome {A} (func : Deck → Result A * Deck) (self : Deck) :
  snd (fair_deck func self) = snd (func self)
  ∧ fst (fair_deck func self) =
      match fst (func self) with
      | Raise e => Raise e
      | Return result =>
          if decide (NoDup (_cards (snd (func self)))) then Return result
          else Raise DeckCheatingError
      end.
Proof.
  rewrite fair_deck_unfold. destruct (func self) as [[result | e] self']; simpl.
  - by destruct (decide (NoDup (_cards self'))).
  - done.
Qed.
